(** * httpcache: a private HTTP cache as an http.RoundTripper

    Shallow embedding of [httpcache.go] and the properties of its decision
    engine: Cache-Control parsing, freshness, validators, the 304 merge,
    storage policy, range slicing and request cloning. *)

From Stdlib Require Import ZArith String Ascii List Lia Bool.
From Stdlib.Strings Require Import Byte.
From stdpp Require Import gmap strings list fin_maps.

Local Open Scope string_scope.
Local Open Scope Z_scope.

(** ** Go strings

    A Go string is a sequence of bytes; so is a Rocq [string]. The package
    only ever splits and trims on single-byte separators (",", "=", "-",
    " "), which are passed as one-character strings, as in the source. *)

Module strings.

(** The separator or cut set of a call, as the byte it consists of. The
    package never passes an empty or a longer one; [sepByte] of such a
    string is the NUL byte. *)
Definition sepByte (sep : string) : ascii :=
  match sep with
  | String c _ => c
  | EmptyString => Ascii.zero
  end.

Fixpoint splitByte (s : string) (c : ascii) : list string :=
  match s with
  | EmptyString => [EmptyString]
  | String a s' =>
      if Ascii.eqb a c then EmptyString :: splitByte s' c
      else match splitByte s' c with
           | p :: ps => String a p :: ps
           | [] => [String a EmptyString]
           end
  end.

(** strings.Split(s, sep) for a one-byte [sep]: the pieces of [s] between
    the occurrences of [sep]; always at least one piece. *)
Definition Split (s sep : string) : list string := splitByte s (sepByte sep).

Fixpoint trimLeftFunc (f : ascii -> bool) (s : string) : string :=
  match s with
  | EmptyString => EmptyString
  | String a s' => if f a then trimLeftFunc f s' else s
  end.

Fixpoint trimRightFunc (f : ascii -> bool) (s : string) : string :=
  match s with
  | EmptyString => EmptyString
  | String a s' =>
      match trimRightFunc f s' with
      | EmptyString => if f a then EmptyString else String a EmptyString
      | r => String a r
      end
  end.

Definition TrimFunc (f : ascii -> bool) (s : string) : string :=
  trimRightFunc f (trimLeftFunc f s).

(** strings.Trim(s, cutset) for a one-byte [cutset]. *)
Definition Trim (s cutset : string) : string :=
  TrimFunc (Ascii.eqb (sepByte cutset)) s.

(** The ASCII white space of unicode.IsSpace: tab, line feed, vertical
    tab, form feed, carriage return and space. *)
Definition isSpace (a : ascii) : bool :=
  let n := N_of_ascii a in
  ((9 <=? n) && (n <=? 13) || (n =? 32))%N.

(** strings.TrimSpace on ASCII text (header values are ASCII). *)
Definition TrimSpace (s : string) : string := TrimFunc isSpace s.

Fixpoint containsByte (s : string) (c : ascii) : bool :=
  match s with
  | EmptyString => false
  | String a s' => Ascii.eqb a c || containsByte s' c
  end.

(** strings.Contains(s, substr) for a one-byte [substr]. *)
Definition Contains (s substr : string) : bool := containsByte s (sepByte substr).

(** strings.ContainsRune(s, r) for an ASCII rune. *)
Definition ContainsRune (s : string) (r : ascii) : bool := containsByte s r.

Definition HasPrefix (s pre : string) : bool := String.prefix pre s.

Fixpoint beforeByte (s : string) (c : ascii) : string :=
  match s with
  | EmptyString => EmptyString
  | String a s' => if Ascii.eqb a c then EmptyString else String a (beforeByte s' c)
  end.

Fixpoint afterByte (s : string) (c : ascii) : string :=
  match s with
  | EmptyString => EmptyString
  | String a s' => if Ascii.eqb a c then s' else afterByte s' c
  end.

(** strings.Cut(s, sep) for a one-byte [sep]: the text before and after
    the first [sep], and whether there is one. The package does not call
    it; it serves to say what its uses of Split amount to. *)
Definition Cut (s sep : string) : string * string * bool :=
  let c := sepByte sep in
  if containsByte s c then (beforeByte s c, afterByte s c, true)
  else (s, EmptyString, false).

(** strings.ToLower on ASCII text. *)
Fixpoint ToLower (s : string) : string :=
  match s with
  | EmptyString => EmptyString
  | String a s' =>
      let n := N_of_ascii a in
      String (if ((65 <=? n) && (n <=? 90))%N then ascii_of_N (n + 32) else a)
             (ToLower s')
  end.

Fixpoint rev (s : string) : string :=
  match s with
  | EmptyString => EmptyString
  | String a s' => rev s' ++ String a EmptyString
  end.

Definition HasSuffix (s suf : string) : bool := String.prefix (rev suf) (rev s).

End strings.

(** ** net/textproto and net/http headers *)

(** textproto's isTokenTable: the bytes allowed in a header field name. *)
Definition validHeaderFieldByte (a : ascii) : bool :=
  let n := N_of_ascii a in
  ((48 <=? n) && (n <=? 57)          (* 0-9 *)
   || (65 <=? n) && (n <=? 90)       (* A-Z *)
   || (97 <=? n) && (n <=? 122)      (* a-z *)
   || existsb (N.eqb n)
        [33; 35; 36; 37; 38; 39; 42; 43; 45; 46; 94; 95; 96; 124; 126])%N.
        (* ! # $ % & ' * + - . ^ _ ` | ~ *)

Fixpoint validHeaderField (s : string) : bool :=
  match s with
  | EmptyString => true
  | String a s' => validHeaderFieldByte a && validHeaderField s'
  end.

Definition isLower (a : ascii) : bool :=
  let n := N_of_ascii a in ((97 <=? n) && (n <=? 122))%N.
Definition isUpper (a : ascii) : bool :=
  let n := N_of_ascii a in ((65 <=? n) && (n <=? 90))%N.
Definition toUpper (a : ascii) : ascii :=
  if isLower a then ascii_of_N (N_of_ascii a - 32) else a.
Definition toLower (a : ascii) : ascii :=
  if isUpper a then ascii_of_N (N_of_ascii a + 32) else a.

Definition dash : ascii := "-"%char.

(** The canonicalising loop: upper case at the start and after each dash,
    lower case elsewhere. *)
Fixpoint canonicalize (upper : bool) (s : string) : string :=
  match s with
  | EmptyString => EmptyString
  | String a s' =>
      let c := if upper then toUpper a else toLower a in
      String c (canonicalize (Ascii.eqb c dash) s')
  end.

(** http.CanonicalHeaderKey: a name holding a byte that is not a token
    byte (a space, say) is returned as it is. *)
Definition CanonicalHeaderKey (s : string) : string :=
  if validHeaderField s then canonicalize true s else s.

(** http.Header is map[string][]string. *)
Abbreviation Header := (gmap string (list string)).

Module Header.

(** h.Get(key): the first value under the canonical form of [key]. *)
Definition Get (h : Header) (key : string) : string :=
  match h !! CanonicalHeaderKey key with
  | Some (v :: _) => v
  | _ => EmptyString
  end.

(** h.Set(key, value): replaces whatever is under the canonical key
    ([Set] is a reserved word, hence the underscore). *)
Definition Set_ (h : Header) (key value : string) : Header :=
  <[CanonicalHeaderKey key := [value]]> h.

End Header.

(** ** Cache-Control *)

Abbreviation cacheControl := (gmap string string).

(** One iteration of the loop of [parseCacheControl]; [None] is the
    run-time panic of an index out of range. *)
Definition parseCacheControl_step (cc : cacheControl) (part : string)
  : option cacheControl :=
  let part := strings.Trim part " " in
  if String.eqb part "" then Some cc
  else if strings.ContainsRune part "="%char then
    let keyval := strings.Split part "=" in
    k ← keyval !! 0%nat;
    v ← keyval !! 1%nat;
    Some (<[strings.Trim k " " := strings.Trim v ","]> cc)
  else Some (<[part := ""]> cc).

Fixpoint parseCacheControl_loop (cc : cacheControl) (parts : list string)
  : option cacheControl :=
  match parts with
  | [] => Some cc
  | part :: rest =>
      cc' ← parseCacheControl_step cc part;
      parseCacheControl_loop cc' rest
  end.

(** [parseCacheControl] with its index expressions checked as Go checks
    them. *)
Definition parseCacheControl_run (headers : Header) : option cacheControl :=
  let ccHeader := Header.Get headers "Cache-Control" in
  parseCacheControl_loop ∅ (strings.Split ccHeader ",").

Definition parseCacheControl_total_step (cc : cacheControl) (part : string)
  : cacheControl :=
  let part := strings.Trim part " " in
  if String.eqb part "" then cc
  else if strings.ContainsRune part "="%char then
    let keyval := strings.Split part "=" in
    <[strings.Trim (nth 0 keyval "") " " := strings.Trim (nth 1 keyval "") ","]> cc
  else <[part := ""]> cc.

(** [parseCacheControl] as a total function; [parseCacheControl_run_total]
    shows that the index expressions are always in range, so that this is
    what the source computes. *)
Definition parseCacheControl (headers : Header) : cacheControl :=
  let ccHeader := Header.Get headers "Cache-Control" in
  fold_left parseCacheControl_total_step (strings.Split ccHeader ",") ∅.

(** ** Errors, integers and strconv *)

(** Go's [error] values as far as the package makes or forwards them:
    errors.New / fmt.Errorf texts and strconv's *NumError. *)
Inductive error :=
  | errorString (msg : string)
  | NumError (Func Num : string) (Err : error).

Definition ErrSyntax : error := errorString "invalid syntax".
Definition ErrRange : error := errorString "value out of range".

(** int64 arithmetic wraps around. *)
Definition wrap64 (z : Z) : Z := (z + 2 ^ 63) mod 2 ^ 64 - 2 ^ 63.

Module strconv.

Definition maxUint64 : Z := 2 ^ 64 - 1.

Definition digit (a : ascii) : option Z :=
  let n := N_of_ascii a in
  if ((48 <=? n) && (n <=? 57))%N then Some (Z.of_N n - 48) else None.

(** The digit loop of ParseUint(s, 10, 64): [inl n] on success, [inr e]
    with [e] the kind of failure; an overflow is reported as soon as it
    happens, before later bytes are looked at. *)
Fixpoint parseUintLoop (s : string) (n : Z) : Z + error :=
  match s with
  | EmptyString => inl n
  | String c s' =>
      match digit c with
      | None => inr ErrSyntax
      | Some d =>
          if n >=? maxUint64 / 10 + 1 then inr ErrRange
          else
            let n1 := n * 10 + d in
            if n1 >? maxUint64 then inr ErrRange else parseUintLoop s' n1
      end
  end.

Definition ParseUint (s : string) : Z + error :=
  if String.eqb s "" then inr ErrSyntax else parseUintLoop s 0.

(** strconv.ParseInt(s, 10, 64): the value and the error. With a syntax
    error the value is 0, with a range error it is the nearest int64. *)
Definition ParseInt (s : string) : Z * option error :=
  let s0 := s in
  let cutoff := 2 ^ 63 in
  match s with
  | EmptyString => (0, Some (NumError "ParseInt" s0 ErrSyntax))
  | String c rest =>
      let '(neg, s) :=
        if Ascii.eqb c "+"%char then (false, rest)
        else if Ascii.eqb c "-"%char then (true, rest)
        else (false, s) in
      let rangeError := Some (NumError "ParseInt" s0 ErrRange) in
      match ParseUint s with
      | inr (errorString "invalid syntax") =>
          (0, Some (NumError "ParseInt" s0 ErrSyntax))
      | inr _ =>
          (* ParseUint returned maxUint64 and ErrRange *)
          if neg then (- cutoff, rangeError) else (cutoff - 1, rangeError)
      | inl un =>
          if negb neg && (un >=? cutoff) then (cutoff - 1, rangeError)
          else if neg && (un >? cutoff) then (- cutoff, rangeError)
          else (if neg then - un else un, None)
      end
  end.

End strconv.

(** ** Requests, responses and the world around the package *)

(** Go's []byte. *)
Abbreviation bytes := (list byte).

(** A response body (an io.ReadCloser) is a reader: it delivers [data] and
    then either the end of the stream or, with [fails], a read error. *)
Record ReadCloser := { data : bytes; fails : bool }.

(** ioutil.ReadAll *)
Definition ReadAll (b : ReadCloser) : bytes * option error :=
  (data b, if fails b then Some (errorString "unexpected EOF") else None).

(** The reader left behind by a failed ReadAll. *)
Definition drained : ReadCloser := {| data := []; fails := true |}.

(** bytes.NewReader(b) under ioutil.NopCloser *)
Definition NewReader (b : bytes) : ReadCloser := {| data := b; fails := false |}.

(** Header maps of requests are objects on the heap: the caller's request
    and its clone each point to one. *)
Abbreviation loc := positive.

Module Request.
(** *http.Request: [URL] is the text req.URL.String() returns; [Header]
    is the reference to the header map, [None] for a nil map. *)
Record t := { Method : string; URL : string; Header : option loc }.
End Request.
Abbreviation Request := Request.t.

Module Response.
Record t := {
  Status : string;
  StatusCode : Z;
  Header : gmap string (list string);
  Body : ReadCloser
}.
Definition withHeader (r : t) (h : gmap string (list string)) : t :=
  {| Status := Status r; StatusCode := StatusCode r; Header := h; Body := Body r |}.
Definition withBody (r : t) (b : ReadCloser) : t :=
  {| Status := Status r; StatusCode := StatusCode r; Header := Header r; Body := b |}.
End Response.
Abbreviation Response := Response.t.

(** What a round tripper is handed: the request with the content its
    header map has at the time of the call. *)
Record Outgoing := { outMethod : string; outURL : string; outHeader : Header }.

(** http.RoundTripper: one HTTP exchange, a response or an error. *)
Abbreviation RoundTripper := (Outgoing -> Response + error).

Abbreviation Duration := Z.

(** The standard library and the package variable [clock], as the package
    uses them. Durations are int64 nanoseconds. *)
Class Platform := {
  Time : Type;
  (** time.Parse(time.RFC1123, value) *)
  time_Parse_RFC1123 : string -> Time + error;
  (** time.ParseDuration *)
  time_ParseDuration : string -> Duration + error;
  (** t.Sub(u) *)
  Time_Sub : Time -> Time -> Duration;
  (** clock.since(d), of the [timer] interface *)
  clock_since : Time -> Duration;
  (** http.ReadResponse on the stored bytes: the response, or the text of
      the error *)
  http_ReadResponse : bytes -> Request -> Response + string;
  (** httputil.DumpResponse(resp, true); [None] when it returns an error *)
  httputil_DumpResponse : Response -> option bytes;
  http_DefaultTransport : RoundTripper
}.

(** The Cache interface, with what its documentation promises of Get after
    Set and Delete. *)
Class Cache (C : Type) := {
  Get : C -> string -> option bytes;
  Set_ : C -> string -> bytes -> C;
  Delete : C -> string -> C;
  Get_Set_eq : forall c k v, Get (Set_ c k v) k = Some v;
  Get_Set_ne : forall c k k' v, k <> k' -> Get (Set_ c k v) k' = Get c k';
  Get_Delete_eq : forall c k, Get (Delete c k) k = None;
  Get_Delete_ne : forall c k k', k <> k' -> Get (Delete c k) k' = Get c k'
}.

(** MemoryCache: the in-memory map (its mutex has no sequential effect). *)
Record MemoryCache := { items : gmap string bytes }.

Definition NewMemoryCache : MemoryCache := {| items := ∅ |}.

#[export] Instance MemoryCache_Cache : Cache MemoryCache := {|
  Get c key := items c !! key;
  Set_ c key resp := {| items := <[key := resp]> (items c) |};
  Delete c key := {| items := delete key (items c) |};
  Get_Set_eq c k v := lookup_insert_eq (items c) k v;
  Get_Set_ne c k k' v ne := lookup_insert_ne (items c) k k' v ne;
  Get_Delete_eq c k := lookup_delete_eq (items c) k;
  Get_Delete_ne c k k' ne := lookup_delete_ne (items c) k k' ne
|}.

(** ** Freshness *)

(** The iota constants of the source. *)
Inductive freshness := stale | fresh | transparent.

#[export] Instance freshness_eq_dec : EqDecision freshness.
Proof. solve_decision. Defined.

Definition XFromCache : string := "X-From-Cache".
Definition rangeSeparator : string := "-".
Definition rangeTypeSeparator : string := "=".

Definition ErrNoDateHeader : error := errorString "no Date header".

(** [_, ok := cc[name]] *)
Definition hasKey (cc : cacheControl) (name : string) : bool :=
  match cc !! name with Some _ => true | None => false end.

Section Freshness.
Context `{Platform}.

(** Date parses and returns the value of the Date header. *)
Definition Date (respHeaders : Header) : Time + error :=
  let dateHeader := Header.Get respHeaders "date" in
  if String.eqb dateHeader "" then inr ErrNoDateHeader
  else time_Parse_RFC1123 dateHeader.

(** [d, err = time.ParseDuration(v + "s"); if err != nil { d = 0 }] *)
Definition secondsOrZero (v : string) : Duration :=
  match time_ParseDuration (v ++ "s") with
  | inl d => d
  | inr _ => 0
  end.

Definition getFreshness (respHeaders reqHeaders : Header) : freshness :=
  let respCacheControl := parseCacheControl respHeaders in
  let reqCacheControl := parseCacheControl reqHeaders in
  if hasKey reqCacheControl "no-cache" then transparent
  else if hasKey respCacheControl "no-cache" then stale
  else if hasKey reqCacheControl "only-if-cached" then fresh
  else
    match Date respHeaders with
    | inr _ => stale
    | inl date =>
        let currentAge := clock_since date in
        let lifetime :=
          match respCacheControl !! "max-age" with
          | Some maxAge => secondsOrZero maxAge
          | None =>
              let expiresHeader := Header.Get respHeaders "Expires" in
              if String.eqb expiresHeader "" then 0
              else
                match time_Parse_RFC1123 expiresHeader with
                | inr _ => 0
                | inl expires => Time_Sub expires date
                end
          end in
        let lifetime :=
          match reqCacheControl !! "max-age" with
          | Some maxAge => secondsOrZero maxAge
          | None => lifetime
          end in
        let currentAge :=
          match reqCacheControl !! "min-fresh" with
          | Some minfresh =>
              match time_ParseDuration (minfresh ++ "s") with
              | inl minfreshDuration => wrap64 (currentAge + minfreshDuration)
              | inr _ => currentAge
              end
          | None => currentAge
          end in
        match reqCacheControl !! "max-stale" with
        | Some maxstale =>
            if String.eqb maxstale "" then fresh
            else
              let currentAge :=
                match time_ParseDuration (maxstale ++ "s") with
                | inl maxstaleDuration => wrap64 (currentAge - maxstaleDuration)
                | inr _ => currentAge
                end in
              if lifetime >? currentAge then fresh else stale
        | None => if lifetime >? currentAge then fresh else stale
        end
    end.

End Freshness.

(** ** Vary, end-to-end headers, storability *)

(** All comma-separated values, each trimmed, of the header [name]. *)
Definition headerAllCommaSepValues (headers : Header) (name : string) : list string :=
  fold_left
    (fun vals val => (vals ++ map strings.TrimSpace (strings.Split val ","))%list)
    (default [] (headers !! CanonicalHeaderKey name)) [].

(** [varyMatches]: the source takes the cached response and the request;
    here the request is given by the content of its header map. *)
Definition varyMatches (cachedResp : Response) (reqHeader : Header) : bool :=
  forallb
    (fun header =>
       let header := CanonicalHeaderKey header in
       negb (negb (String.eqb header "")
             && negb (String.eqb (Header.Get reqHeader header)
                        (Header.Get (Response.Header cachedResp) ("X-Varied-" ++ header)))))
    (headerAllCommaSepValues (Response.Header cachedResp) "vary").

Definition hopByHopHeaders : gset string :=
  {[ "Connection"; "Keep-Alive"; "Proxy-Authenticate"; "Proxy-Authorization";
     "Te"; "Trailers"; "Transfer-Encoding"; "Upgrade" ]}.

(** The hop-by-hop set after the loop over the Connection header: the
    entry is canonicalised without being trimmed. *)
Definition hopByHop (respHeaders : Header) : gset string :=
  fold_left
    (fun hop extra =>
       if negb (String.eqb (strings.Trim extra " ") "")
       then {[ CanonicalHeaderKey extra ]} ∪ hop else hop)
    (strings.Split (Header.Get respHeaders "connection") ",")
    hopByHopHeaders.

(** Go ranges over the map in no particular order; the order of
    [map_to_list] stands for it. *)
Definition getEndToEndHeaders (respHeaders : Header) : list string :=
  let hop := hopByHop respHeaders in
  filter (fun respHeader => respHeader ∉ hop) (map_to_list respHeaders).*1.

Definition canStore (reqCacheControl respCacheControl : cacheControl) : bool :=
  if hasKey respCacheControl "no-store" then false
  else if hasKey reqCacheControl "no-store" then false
  else true.

(** cacheKey returns the cache key for req. *)
Definition cacheKey (req : Request) : string := Request.URL req.

(** ** The state of an exchange

    A call of [RoundTrip] works on the cache, on the header maps of the
    requests on the heap, and sends requests to a round tripper; [sent]
    records the requests sent, oldest first. A run ends with a value or
    with a run-time panic. *)

Inductive fault :=
  | IndexOutOfRange       (** an index expression beyond the length *)
  | SliceOutOfRange       (** a negative lower bound of a slice expression *)
  | SlicePastLength       (** an upper bound beyond len(body): Go panics
                              when it is beyond the capacity of the buffer
                              as well, and otherwise exposes the buffer
                              past the body; the run is not followed further *)
  | NilMapWrite           (** assignment to an entry of a nil map *)
  | ExplicitPanic.        (** panic(err) *)

Inductive Outcome (A : Type) :=
  | Ret (a : A)
  | Fault (f : fault).
Arguments Ret {A} a.
Arguments Fault {A} f.

Record State (C : Type) := mkState {
  cache : C;
  heap : gmap loc (gmap string (list string));
  sent : list Outgoing
}.
Arguments mkState {C} _ _ _.
Arguments cache {C} _.
Arguments heap {C} _.
Arguments sent {C} _.

Definition M (C A : Type) : Type := State C -> Outcome A * State C.

#[export] Instance M_ret {C} : MRet (M C) := fun A a σ => (Ret a, σ).

#[export] Instance M_bind {C} : MBind (M C) := fun A B f m σ =>
  match m σ with
  | (Ret a, σ') => f a σ'
  | (Fault e, σ') => (Fault e, σ')
  end.

Definition panic {C A} (f : fault) : M C A := fun σ => (Fault f, σ).

Section Exchange.
Context `{Platform} {C : Type} `{Cache C}.

(** [l[i]] *)
Definition index {A} (l : list A) (i : nat) : M C A :=
  match l !! i with
  | Some x => mret x
  | None => panic IndexOutOfRange
  end.

Definition cacheGet (key : string) : M C (option bytes) :=
  fun σ => (Ret (Get (cache σ) key), σ).

Definition cacheSet (key : string) (v : bytes) : M C unit :=
  fun σ => (Ret tt, mkState (Set_ (cache σ) key v) (heap σ) (sent σ)).

Definition cacheDelete (key : string) : M C unit :=
  fun σ => (Ret tt, mkState (Delete (cache σ) key) (heap σ) (sent σ)).

(** The content of the header map a request points to; a nil map reads
    as the empty one. *)
Definition headerAt (h : gmap loc (gmap string (list string))) (req : Request) : Header :=
  match Request.Header req with
  | Some l => default ∅ (h !! l)
  | None => ∅
  end.

Definition headerOf (req : Request) : M C Header :=
  fun σ => (Ret (headerAt (heap σ) req), σ).

(** [req.Header.Get(key)] *)
Definition reqHeaderGet (req : Request) (key : string) : M C string :=
  h ← headerOf req; mret (Header.Get h key).

(** [req.Header.Set(key, value)]: writes the map the request points to. *)
Definition reqHeaderSet (req : Request) (key value : string) : M C unit :=
  match Request.Header req with
  | Some l => fun σ =>
      (Ret tt,
       mkState (cache σ)
               (<[l := Header.Set_ (default ∅ (heap σ !! l)) key value]> (heap σ))
               (sent σ))
  | None => panic NilMapWrite
  end.

(** [make(http.Header)] filled with [h]: a map at a fresh location. *)
Definition newHeader (h : Header) : M C loc :=
  fun σ =>
    let l := base.fresh (dom (heap σ)) in
    (Ret l, mkState (cache σ) (<[l := h]> (heap σ)) (sent σ)).

(** [transport.RoundTrip(req)] *)
Definition roundTrip (transport : RoundTripper) (req : Request)
  : M C (Response + error) :=
  fun σ =>
    let out := {| outMethod := Request.Method req;
                  outURL := Request.URL req;
                  outHeader := headerAt (heap σ) req |} in
    (Ret (transport out), mkState (cache σ) (heap σ) (sent σ ++ [out])).

(** cloneRequest returns a clone of the provided *http.Request: a copy
    of the struct, pointing to a new map that holds the entries of the
    old one. The two maps share their value slices; the package never
    writes into a slice (Set puts a new one in its place), so that values
    stand for them. *)
Definition cloneRequest (r : Request) : M C Request :=
  h ← headerOf r;
  l ← newHeader (map_fold (fun k s r2Header => <[k := s]> r2Header) ∅ h);
  mret {| Request.Method := Request.Method r;
          Request.URL := Request.URL r;
          Request.Header := Some l |}.

Definition newline : string := String (ascii_of_nat 10) "".
Definition crlf : string := String (ascii_of_nat 13) newline.

(** [body[lo:hi]] for int64 bounds with [lo < hi]. *)
Definition slice (body : bytes) (lo hi : Z) : M C bytes :=
  if lo <? 0 then panic SliceOutOfRange
  else if hi >? Z.of_nat (length body) then panic SlicePastLength
  else mret (take (Z.to_nat (hi - lo)) (drop (Z.to_nat lo) body)).

(** CachedResponse returns the cached http.Response for req if present,
    and nil otherwise. The pair is Go's [(resp, err)]. *)
Definition CachedResponse (req : Request) : M C (option Response * option error) :=
  cachedVal ← cacheGet (cacheKey req);
  match cachedVal with
  | None => mret (None, None)
  | Some cachedVal =>
      match http_ReadResponse cachedVal req with
      | inr msg =>
          mret (None, Some (errorString
                  ("error loading response from cache: " ++ msg ++ newline)))
      | inl returnResponse =>
          rangeRaw ← reqHeaderGet req "range";
          if String.eqb rangeRaw "" then mret (Some returnResponse, None)
          else
            let tmp := strings.Split rangeRaw rangeTypeSeparator in
            rangeType ← index tmp 0;
            rangeValue ← index tmp 1;
            if negb (String.eqb rangeType "bytes") then mret (Some returnResponse, None)
            else
              rangeValue ← (if strings.Contains rangeValue ","
                            then index (strings.Split rangeValue ",") 0
                            else mret rangeValue);
              let '(body, err) := ReadAll (Response.Body returnResponse) in
              match err with
              | Some _ => mret (Some (Response.withBody returnResponse drained), None)
              | None =>
                  let rangeList := strings.Split rangeValue rangeSeparator in
                  let finish (rangeRequestStart rangeRequestEnd : Z) :=
                    if rangeRequestStart >=? rangeRequestEnd
                    then mret (None, Some (errorString
                                 "non valid ranges specified in range request"))
                    else
                      b ← slice body rangeRequestStart rangeRequestEnd;
                      mret (Some (Response.withBody returnResponse (NewReader b)), None) in
                  if strings.HasPrefix rangeValue rangeSeparator then
                    let rangeRequestEnd := Z.of_nat (length body) in
                    s ← index rangeList 1;
                    match strconv.ParseInt s with
                    | (_, Some err) => mret (None, Some err)
                    | (end_, None) => finish (wrap64 (rangeRequestEnd - end_)) rangeRequestEnd
                    end
                  else if strings.HasSuffix rangeValue rangeSeparator then
                    s ← index rangeList 0;
                    match strconv.ParseInt s with
                    | (_, Some err) => mret (None, Some err)
                    | (rangeRequestStart, None) =>
                        finish rangeRequestStart (Z.of_nat (length body))
                    end
                  else
                    s0 ← index rangeList 0;
                    s1 ← index rangeList 1;
                    finish (strconv.ParseInt s0).1 (strconv.ParseInt s1).1
              end
      end
  end.

(** The bytes newGatewayTimeoutResponse parses. *)
Definition gatewayTimeoutRaw : bytes :=
  list_byte_of_string ("HTTP/1.1 504 Gateway Timeout" ++ crlf ++ crlf).

Definition newGatewayTimeoutResponse (req : Request) : M C Response :=
  match http_ReadResponse gatewayTimeoutRaw req with
  | inl resp => mret resp
  | inr _ => panic ExplicitPanic
  end.

(** The body of the loop over the Vary header: the value the request has
    for [varyKey] is noted on the response under X-Varied-[varyKey]. *)
Definition snapshotVary (reqHeader : Header) (resp : Response) (varyKey : string)
  : Response :=
  let varyKey := CanonicalHeaderKey varyKey in
  let fakeHeader := "X-Varied-" ++ varyKey in
  let reqValue := Header.Get reqHeader varyKey in
  if negb (String.eqb reqValue "")
  then Response.withHeader resp (Header.Set_ (Response.Header resp) fakeHeader reqValue)
  else resp.

(** The end of RoundTrip, from the second [parseCacheControl(req.Header)]
    on: store the response or delete the entry, and return the
    response. *)
Definition RoundTrip_store (req : Request) (cacheKey : string) (resp : Response)
  : M C (Response + error) :=
  reqHeader ← headerOf req;
  let reqCacheControl := parseCacheControl reqHeader in
  let respCacheControl := parseCacheControl (Response.Header resp) in
  if canStore reqCacheControl respCacheControl then
    let resp :=
      fold_left (snapshotVary reqHeader)
        (headerAllCommaSepValues (Response.Header resp) "vary") resp in
    match httputil_DumpResponse resp with
    | Some respBytes => cacheSet cacheKey respBytes;; mret (inl resp)
    | None => mret (inl resp)
    end
  else
    cacheDelete cacheKey;; mret (inl resp).

(** [cachedResp.Header[header] = resp.Header[header]] for each of the
    end-to-end headers. *)
Definition mergeHeaders (cachedHeader respHeader : Header) : Header :=
  fold_left
    (fun h header => <[header := default [] (respHeader !! header)]> h)
    (getEndToEndHeaders respHeader) cachedHeader.

(** The body of [if freshness == stale]: add validators if caller hasn't
    already done so. *)
Definition addValidators (cachedResp : Response) (req : Request) : M C unit :=
  let etag := Header.Get (Response.Header cachedResp) "etag" in
  callerEtag ← reqHeaderGet req "etag";
  (if negb (String.eqb etag "") && String.eqb callerEtag ""
   then reqHeaderSet req "if-none-match" etag else mret tt);;
  let lastModified := Header.Get (Response.Header cachedResp) "last-modified" in
  callerLastModified ← reqHeaderGet req "last-modified";
  (if negb (String.eqb lastModified "") && String.eqb callerLastModified ""
   then reqHeaderSet req "if-modified-since" lastModified else mret tt).

(** RoundTrip with a cached response that is not served as it is: from
    [resp, err = transport.RoundTrip(req)] on. *)
Definition RoundTrip_fetch (transport : RoundTripper) (req : Request)
    (cacheKey : string) (cachedResp : Response) : M C (Response + error) :=
  r ← roundTrip transport req;
  match r with
  | inl resp =>
      if String.eqb (Request.Method req) "GET" && (Response.StatusCode resp =? 304)
      then
        (* Replace the 304 response with the one from cache, but update
           with some new headers *)
        let cachedResp :=
          {| Response.Status := "200 OK";
             Response.StatusCode := 200;
             Response.Header :=
               mergeHeaders (Response.Header cachedResp) (Response.Header resp);
             Response.Body := Response.Body cachedResp |} in
        RoundTrip_store req cacheKey cachedResp
      else
        (if negb (Response.StatusCode resp =? 200)
         then cacheDelete cacheKey else mret tt);;
        RoundTrip_store req cacheKey resp
  | inr err =>
      cacheDelete cacheKey;;
      mret (inr err)
  end.

(** [cachedResp.Header.Set(XFromCache, "1")] when MarkCachedResponses. *)
Definition mark (MarkCachedResponses : bool) (cachedResp : Response) : Response :=
  if MarkCachedResponses
  then Response.withHeader cachedResp
         (Header.Set_ (Response.Header cachedResp) XFromCache "1")
  else cachedResp.

(** RoundTrip when CachedResponse gave a response and no error. *)
Definition RoundTrip_cached (MarkCachedResponses : bool) (transport : RoundTripper)
    (req : Request) (cacheKey : string) (cachedResp : Response)
  : M C (Response + error) :=
  let cachedResp := mark MarkCachedResponses cachedResp in
  reqHeader ← headerOf req;
  served ←
    (if varyMatches cachedResp reqHeader then
       match getFreshness (Response.Header cachedResp) reqHeader with
       | fresh => mret true
       | stale => addValidators cachedResp req;; mret false
       | transparent => mret false
       end
     else mret false);
  if served : bool then mret (inl cachedResp)
  else RoundTrip_fetch transport req cacheKey cachedResp.

(** RoundTrip when there is no usable cached response. *)
Definition RoundTrip_uncached (transport : RoundTripper) (req : Request)
    (cacheKey : string) : M C (Response + error) :=
  reqHeader ← headerOf req;
  let reqCacheControl := parseCacheControl reqHeader in
  if hasKey reqCacheControl "only-if-cached" then
    resp ← newGatewayTimeoutResponse req;
    RoundTrip_store req cacheKey resp
  else
    r ← roundTrip transport req;
    match r with
    | inl resp => RoundTrip_store req cacheKey resp
    | inr err => mret (inr err)
    end.

End Exchange.

Module Transport.
(** The Transport struct. Its Cache field is the [cache] of the state
    the exchange runs in. *)
Record t := {
  Transport : option RoundTripper;
  MarkCachedResponses : bool
}.
End Transport.
Abbreviation Transport := Transport.t.

(** NewTransport: MarkCachedResponses set to true. *)
Definition NewTransport : Transport :=
  {| Transport.Transport := None; Transport.MarkCachedResponses := true |}.

Section RoundTrip.
Context `{Platform} {C : Type} `{Cache C}.

(** [req.Method == "GET" || req.Method == "HEAD"] *)
Definition cacheableMethod (req : Request) : bool :=
  String.eqb (Request.Method req) "GET" || String.eqb (Request.Method req) "HEAD".

(** RoundTrip takes a Request and returns a Response. *)
Definition RoundTrip (t : Transport) (req : Request) : M C (Response + error) :=
  req ← cloneRequest req;
  let cacheKey := cacheKey req in
  let cacheableMethod := cacheableMethod req in
  '(cachedResp, err) ←
    (if cacheableMethod then CachedResponse req
     else
       (* Need to invalidate an existing value *)
       cacheDelete cacheKey;; mret (None, None));
  let transport := default http_DefaultTransport (Transport.Transport t) in
  if negb cacheableMethod then roundTrip transport req
  else
    match cachedResp, err with
    | Some cachedResp, None =>
        RoundTrip_cached (Transport.MarkCachedResponses t) transport req cacheKey cachedResp
    | _, _ => RoundTrip_uncached transport req cacheKey
    end.

(** The clone RoundTrip works on, and the state once it is made. *)
Definition cloned (req : Request) (σ : State C) : Request * State C :=
  let l := base.fresh (dom (heap σ)) in
  ({| Request.Method := Request.Method req;
      Request.URL := Request.URL req;
      Request.Header := Some l |},
   mkState (cache σ) (<[l := headerAt (heap σ) req]> (heap σ)) (sent σ)).

(** Whether RoundTrip answers from the cache alone: the method is GET or
    HEAD, CachedResponse gives a response, which matches the request on
    Vary and is fresh. *)
Definition freshHit (t : Transport) (req : Request) (σ : State C) : bool :=
  let '(req', σ1) := cloned req σ in
  cacheableMethod req
  && match CachedResponse req' σ1 with
     | (Ret (Some cachedResp, None), σ2) =>
         let cachedResp := mark (Transport.MarkCachedResponses t) cachedResp in
         varyMatches cachedResp (headerAt (heap σ2) req')
         && bool_decide (getFreshness (Response.Header cachedResp)
                           (headerAt (heap σ2) req') = fresh)
     | _ => false
     end.

End RoundTrip.

(** ** Runs and what they leave alone *)

(** Every run of [m] takes a state to one related to it by [R]. *)
Definition keeps {C A} (R : State C -> State C -> Prop) (m : M C A) : Prop :=
  forall σ, R σ (m σ).2.

(** The header maps at locations other than [l] are the same. *)
Definition sameBut {C} (l : loc) (σ σ' : State C) : Prop :=
  forall l', l' <> l -> heap σ' !! l' = heap σ !! l'.

(** The cache and the requests sent are the same, and so is the
    Cache-Control header of the request [req]. *)
Definition sameExchange `{Platform} {C} `{Cache C} (req : Request) (σ σ' : State C) : Prop :=
  cache σ' = cache σ
  /\ sent σ' = sent σ
  /\ parseCacheControl (headerAt (heap σ') req) = parseCacheControl (headerAt (heap σ) req).

(** The request as a round tripper is handed it in state [σ]. *)
Definition outgoing `{Platform} {C} `{Cache C} (req : Request) (σ : State C) : Outgoing :=
  {| outMethod := Request.Method req;
     outURL := Request.URL req;
     outHeader := headerAt (heap σ) req |}.

(** ** A reference platform

    A small, executable stand-in for the standard library, used to run the
    package on concrete exchanges: dates in the fixed-width GMT form that
    http.TimeFormat writes, durations in whole seconds, responses on the
    wire without Content-Length or Transfer-Encoding, and a clock that
    stands still at [now]. *)

Module Ref.

Definition second : Z := 1000000000.

Definition saturate (z : Z) : Z := Z.max (- 2 ^ 63) (Z.min (2 ^ 63 - 1) z).

Definition number (s : string) : option Z :=
  match strconv.ParseUint s with
  | inl n => Some n
  | inr _ => None
  end.

Definition monthNames : list string :=
  ["Jan"; "Feb"; "Mar"; "Apr"; "May"; "Jun"; "Jul"; "Aug"; "Sep"; "Oct"; "Nov"; "Dec"].
Definition dayNames : list string :=
  ["Mon"; "Tue"; "Wed"; "Thu"; "Fri"; "Sat"; "Sun"].

Fixpoint position (x : string) (l : list string) (i : Z) : option Z :=
  match l with
  | [] => None
  | y :: l' => if String.eqb x y then Some i else position x l' (i + 1)
  end.

Definition isLeap (y : Z) : bool :=
  (y mod 4 =? 0) && (negb (y mod 100 =? 0) || (y mod 400 =? 0)).

Definition daysIn (m y : Z) : Z :=
  if m =? 2 then (if isLeap y then 29 else 28)
  else if (m =? 4) || (m =? 6) || (m =? 9) || (m =? 11) then 30 else 31.

(** Days since 1970-01-01 of a date of the Gregorian calendar. *)
Definition daysFromCivil (y m d : Z) : Z :=
  let y' := if m <=? 2 then y - 1 else y in
  let era := y' / 400 in
  let yoe := y' - era * 400 in
  let doy := (153 * (if m >? 2 then m - 3 else m + 9) + 2) / 5 + d - 1 in
  let doe := yoe * 365 + yoe / 4 - yoe / 100 + doy in
  era * 146097 + doe - 719468.

(** "Mon, 02 Jan 2006 15:04:05 GMT", to nanoseconds since 1970. *)
Definition parseRFC1123 (s : string) : Z + error :=
  let bad := inr (errorString "parsing time: cannot parse") in
  let sub := fun a n => String.substring a n s in
  if negb (Nat.eqb (String.length s) 29) then bad
  else if negb (String.eqb (sub 3 2 ++ sub 7 1 ++ sub 11 1 ++ sub 16 1
                            ++ sub 19 1 ++ sub 22 1 ++ sub 25 4)%nat ",    :: GMT")
  then bad
  else
    match position (sub 0 3)%nat dayNames 0, number (sub 5 2)%nat,
          position (sub 8 3)%nat monthNames 1, number (sub 12 4)%nat,
          number (sub 17 2)%nat, number (sub 20 2)%nat, number (sub 23 2)%nat with
    | Some _, Some d, Some m, Some y, Some hh, Some mm, Some ss =>
        if (1 <=? d) && (d <=? daysIn m y) && (hh <? 24) && (mm <? 60) && (ss <? 60)
        then inl ((daysFromCivil y m d * 86400 + hh * 3600 + mm * 60 + ss) * second)
        else bad
    | _, _, _, _, _, _, _ => bad
    end.

(** A signed decimal number of seconds, "3600s". *)
Definition parseDuration (s : string) : Z + error :=
  let bad := inr (errorString "time: invalid duration") in
  match strings.rev s with
  | String "s" r =>
      let '(neg, digits) :=
        match strings.rev r with
        | String "-" d => (true, d)
        | String "+" d => (false, d)
        | d => (false, d)
        end in
      match number digits with
      | Some n =>
          if n * second >? 2 ^ 63 - 1 then bad
          else inl (if neg : bool then - (n * second) else n * second)
      | None => bad
      end
  | _ => bad
  end.

Definition trimCR (s : string) : string :=
  strings.trimRightFunc (Ascii.eqb (ascii_of_nat 13)) s.

(** The first occurrence of [sep] in [s]: what is before and after it. *)
Fixpoint cut (sep s : string) : option (string * string) :=
  if String.prefix sep s
  then Some (EmptyString, String.substring (String.length sep)
                            (String.length s - String.length sep) s)
  else
    match s with
    | EmptyString => None
    | String a s' =>
        match cut sep s' with
        | Some (l, r) => Some (String a l, r)
        | None => None
        end
    end.

Definition addHeaderLine (acc : option Header) (line : string) : option Header :=
  match acc, cut ":" line with
  | Some h, Some (k, v) =>
      let k := CanonicalHeaderKey k in
      Some (<[k := (default [] (h !! k) ++ [strings.TrimSpace v])%list]> h)
  | _, _ => None
  end.

Definition crlf : string := String (ascii_of_nat 13) (String (ascii_of_nat 10) "").

(** Status line, header lines, an empty line, and the body up to the
    end of the bytes; no body in answer to HEAD. *)
Definition ReadResponse (raw : bytes) (req : Request) : Response + string :=
  match cut (crlf ++ crlf) (string_of_list_byte raw) with
  | None => inr "unexpected EOF"
  | Some (head, body) =>
      match map trimCR (strings.splitByte head (ascii_of_nat 10)) with
      | [] => inr "malformed HTTP response"
      | statusLine :: headerLines =>
          match cut " " statusLine with
          | None => inr "malformed HTTP response"
          | Some (proto, status) =>
              match String.prefix "HTTP/" proto,
                    number (String.substring 0 3 status),
                    fold_left addHeaderLine headerLines (Some ∅) with
              | true, Some code, Some h =>
                  inl {| Response.Status := status;
                         Response.StatusCode := code;
                         Response.Header := h;
                         Response.Body :=
                           NewReader (if String.eqb (Request.Method req) "HEAD"
                                      then [] else list_byte_of_string body) |}
              | _, _, _ => inr "malformed HTTP response"
              end
          end
      end
  end.

Definition headerLines (h : Header) : string :=
  fold_right
    (fun kv acc =>
       fold_right (fun v acc => kv.1 ++ ": " ++ v ++ crlf ++ acc) acc kv.2)
    EmptyString (map_to_list h).

Definition DumpResponse (resp : Response) : option bytes :=
  if fails (Response.Body resp) then None
  else Some (list_byte_of_string
               ("HTTP/1.1 " ++ Response.Status resp ++ crlf
                ++ headerLines (Response.Header resp) ++ crlf)
             ++ data (Response.Body resp))%list.

(** No network by default. *)
Definition DefaultTransport : RoundTripper :=
  fun _ => inr (errorString "no network").

(** The platform whose clock shows [now] (nanoseconds since 1970). *)
Definition platform (now : Z) : Platform := {|
  Time := Z;
  time_Parse_RFC1123 := parseRFC1123;
  time_ParseDuration := parseDuration;
  Time_Sub t u := saturate (t - u);
  clock_since d := saturate (now - d);
  http_ReadResponse := ReadResponse;
  httputil_DumpResponse := DumpResponse;
  http_DefaultTransport := DefaultTransport
|}.

(** A state with the caller's header map at location 1, and the request
    pointing to it. *)
Definition start (items : gmap string bytes) (reqHeader : Header) : State MemoryCache :=
  mkState {| items := items |} {[ 1%positive := reqHeader ]} [].

Definition request (method url : string) : Request :=
  {| Request.Method := method; Request.URL := url; Request.Header := Some 1%positive |}.

(** A stored entry: status 200, the given header lines, the given body. *)
Definition entry (headers : list string) (body : string) : bytes :=
  list_byte_of_string
    ("HTTP/1.1 200 OK" ++ crlf
     ++ fold_right (fun l acc => l ++ crlf ++ acc) EmptyString headers
     ++ crlf ++ body).

(** A transport that answers every request with [r]. *)
Definition always (r : Response + error) : RoundTripper := fun _ => r.

End Ref.


(** ** Example exchanges *)

Module Ex.

(** 2006-01-02 15:04:05 GMT, and ten seconds later. *)
Definition dateText : string := "Mon, 02 Jan 2006 15:04:05 GMT".
Definition date : Z := 1136214245 * Ref.second.
Definition now : Z := date + 10 * Ref.second.

(** The day before. *)
Definition earlier : string := "Sun, 01 Jan 2006 15:04:05 GMT".

Definition url : string := "http://example.com/a".

(** A response good for an hour. *)
Definition respHour : Header :=
  {[ "Cache-Control" := ["max-age=3600"]; "Date" := [dateText] ]}.

(** A response good for a second, and expired by its Expires header. *)
Definition respSecond : Header :=
  {[ "Cache-Control" := ["max-age=1"]; "Date" := [dateText]; "Expires" := [earlier] ]}.

(** A response without a Date header. *)
Definition respNoDate : Header := {[ "Cache-Control" := ["max-age=3600"] ]}.

Definition reqMaxAge5 : Header := {[ "Cache-Control" := ["max-age=5"] ]}.
Definition reqMaxStale : Header := {[ "Cache-Control" := ["max-stale"] ]}.
Definition reqMaxStaleNoCache : Header := {[ "Cache-Control" := ["max-stale, no-cache"] ]}.

(** The cache with one entry, of body "abcdefghij", and a request for it
    with the given Range header. *)
Definition stored (range : string) : State MemoryCache :=
  Ref.start {[ url := Ref.entry [] "abcdefghij" ]} {[ "Range" := [range] ]}.

Definition get : Request := Ref.request "GET" url.
Definition post : Request := Ref.request "POST" url.

(** A Transport over a round tripper that answers [r] to every request. *)
Definition answering (r : Response + error) : Transport :=
  {| Transport.Transport := Some (Ref.always r);
     Transport.MarkCachedResponses := true |}.

(** The response a body-only entry parses to. *)
Definition ok (body : string) : Response :=
  {| Response.Status := "200 OK";
     Response.StatusCode := 200;
     Response.Header := ∅;
     Response.Body := NewReader (list_byte_of_string body) |}.

(** A 304 Not Modified carrying the given ETag. *)
Definition notModified (etag : string) : Response :=
  {| Response.Status := "304 Not Modified";
     Response.StatusCode := 304;
     Response.Header := {[ "Etag" := [etag] ]};
     Response.Body := NewReader [] |}.

(** The cache with one entry for [url], made of the given header lines and
    the body "abcdefghij", and the caller's header map. *)
Definition exchange (entryHeaders : list string) (reqHeader : Header) : State MemoryCache :=
  Ref.start {[ url := Ref.entry entryHeaders "abcdefghij" ]} reqHeader.

(** The response of a run, if it ended with one. *)
Definition returned {C} (run : Outcome (Response + error) * State C) : option Response :=
  match run.1 with
  | Ret (inl resp) => Some resp
  | _ => None
  end.

Definition bodyText (resp : Response) : string :=
  string_of_list_byte (data (Response.Body resp)).

End Ex.

(** ** The directive parser *)

(** The parser as the specification words it: split on ",", trim white
    space, split each token on the first "=" into a case-normalised name
    and its value; a token without "=" has the empty value. *)
Definition parseCacheControl_spec (headerValue : string) : cacheControl :=
  fold_left
    (fun cc token =>
       let token := strings.TrimSpace token in
       if String.eqb token "" then cc
       else
         let '(name, value, _) := strings.Cut token "=" in
         <[strings.ToLower (strings.TrimSpace name) := value]> cc)
    (strings.Split headerValue ",") ∅.

(** What one token contributes in the source: nothing when it is empty
    after trimming spaces; else the name before its first "=", spaces
    trimmed and case kept, with the text between the first and the second
    "=" (to the end when there is one "=" only); the token itself with the
    empty value when it has no "=". *)
Definition directive (token : string) : option (string * string) :=
  let token := strings.Trim token " " in
  if String.eqb token "" then None
  else
    let '(name, rest, found) := strings.Cut token "=" in
    if found then Some (strings.Trim name " ", (strings.Cut rest "=").1.1)
    else Some (token, EmptyString).

Definition directives (headerValue : string) : cacheControl :=
  fold_left
    (fun cc token =>
       match directive token with
       | Some (name, value) => <[name := value]> cc
       | None => cc
       end)
    (strings.Split headerValue ",") ∅.

Section SplitFacts.
Import strings.

Lemma splitByte_cons s c : exists p ps, splitByte s c = p :: ps.
Proof.
  induction s as [|a s IH]; simpl; [eauto|].
  destruct (Ascii.eqb a c); [eauto|].
  destruct IH as (p & ps & ->); eauto.
Qed.

(** Split, one piece at a time. *)
Lemma splitByte_unfold s c :
  splitByte s c =
    if containsByte s c then beforeByte s c :: splitByte (afterByte s c) c
    else [s].
Proof.
  induction s as [|a s IH]; simpl; [done|].
  destruct (Ascii.eqb a c); simpl; [done|].
  rewrite IH. destruct (containsByte s c); done.
Qed.

Lemma splitByte_lookup_0 s c : splitByte s c !! 0%nat = Some (beforeByte s c).
Proof.
  rewrite splitByte_unfold. destruct (containsByte s c) eqn:E; simpl; [done|].
  f_equal. induction s as [|a s IH]; simpl in *; [done|].
  destruct (Ascii.eqb a c); [done|]. simpl in E. by rewrite <- IH.
Qed.

Lemma splitByte_lookup_1 s c :
  containsByte s c = true ->
  splitByte s c !! 1%nat = Some (beforeByte (afterByte s c) c).
Proof.
  intros E. rewrite splitByte_unfold, E. simpl. apply splitByte_lookup_0.
Qed.

Lemma containsByte_beforeByte s c d :
  containsByte s d = false -> containsByte (beforeByte s c) d = false.
Proof.
  induction s as [|a s IH]; simpl; [done|].
  intros [E1 E2]%orb_false_iff. destruct (Ascii.eqb a c); simpl; [done|].
  by rewrite E1, IH.
Qed.

Lemma containsByte_afterByte s c d :
  containsByte s d = false -> containsByte (afterByte s c) d = false.
Proof.
  induction s as [|a s IH]; simpl; [done|].
  intros [E1 E2]%orb_false_iff. destruct (Ascii.eqb a c); auto.
Qed.

Lemma containsByte_trimLeftFunc f s d :
  containsByte s d = false -> containsByte (trimLeftFunc f s) d = false.
Proof.
  induction s as [|a s IH]; simpl; [done|].
  intros E. destruct (f a); [|done].
  apply IH. by apply orb_false_iff in E as [_ ?].
Qed.

Lemma containsByte_trimRightFunc f s d :
  containsByte s d = false -> containsByte (trimRightFunc f s) d = false.
Proof.
  induction s as [|a s IH]; simpl; [done|].
  intros [E1 E2]%orb_false_iff. specialize (IH E2).
  destruct (trimRightFunc f s) eqn:T.
  - destruct (f a); simpl; [done|]. by rewrite E1.
  - simpl in *. by rewrite E1, IH.
Qed.

Lemma containsByte_Trim s cutset d :
  containsByte s d = false -> containsByte (Trim s cutset) d = false.
Proof.
  intros. unfold Trim, TrimFunc.
  by apply containsByte_trimRightFunc, containsByte_trimLeftFunc.
Qed.

(** The pieces of a split do not hold the separator. *)
Lemma splitByte_pieces s c p : In p (splitByte s c) -> containsByte p c = false.
Proof.
  revert p. induction s as [|a s IH]; simpl; intros p.
  - intros [<-|[]]; done.
  - destruct (Ascii.eqb a c) eqn:E.
    + intros [<-|Hin]; [done|auto].
    + destruct (splitByte_cons s c) as (q & qs & Hq). rewrite Hq in *.
      intros [<-|Hin]; simpl.
      * rewrite E. apply IH. by left.
      * apply IH. by right.
Qed.

(** Trimming a byte that does not occur changes nothing. *)
Lemma Trim_absent s cutset :
  containsByte s (sepByte cutset) = false -> Trim s cutset = s.
Proof.
  unfold Trim, TrimFunc. generalize (sepByte cutset) as c. intros c E.
  assert (L : trimLeftFunc (Ascii.eqb c) s = s).
  { destruct s as [|a s]; simpl in *; [done|].
    apply orb_false_iff in E as [E _].
    rewrite Ascii.eqb_sym in E. by rewrite E. }
  rewrite L. clear L.
  induction s as [|a s IH]; simpl in *; [done|].
  apply orb_false_iff in E as [E1 E2]. rewrite (IH E2).
  destruct s; [|done]. rewrite Ascii.eqb_sym in E1. by rewrite E1.
Qed.

End SplitFacts.

Section ParserFacts.
Import strings.

Lemma beforeByte_absent s c : containsByte s c = false -> beforeByte s c = s.
Proof.
  induction s as [|a s IH]; simpl; [done|].
  intros [E1 E2]%orb_false_iff. by rewrite E1, IH.
Qed.

Lemma parseCacheControl_step_total cc part :
  parseCacheControl_step cc part = Some (parseCacheControl_total_step cc part).
Proof.
  unfold parseCacheControl_step, parseCacheControl_total_step.
  destruct (String.eqb _ _); [done|].
  unfold ContainsRune, Split. simpl sepByte.
  destruct (containsByte (Trim part " ") "=") eqn:E; [|done].
  rewrite !nth_lookup, splitByte_lookup_0, (splitByte_lookup_1 _ _ E). done.
Qed.

Lemma parseCacheControl_loop_total parts cc :
  parseCacheControl_loop cc parts
  = Some (fold_left parseCacheControl_total_step parts cc).
Proof.
  revert cc. induction parts as [|part parts IH]; intros cc; simpl; [done|].
  rewrite parseCacheControl_step_total. simpl. apply IH.
Qed.

(** The index expressions of the parser are always in range. *)
Lemma parseCacheControl_run_total headers :
  parseCacheControl_run headers = Some (parseCacheControl headers).
Proof. apply parseCacheControl_loop_total. Qed.

Lemma parseCacheControl_total_step_directive cc part :
  containsByte part "," = false ->
  parseCacheControl_total_step cc part
  = match directive part with
    | Some (name, value) => <[name := value]> cc
    | None => cc
    end.
Proof.
  intros Hc. unfold parseCacheControl_total_step, directive.
  destruct (String.eqb _ _); [done|].
  unfold ContainsRune, Split, Cut. simpl sepByte.
  assert (Ht : containsByte (Trim part " ") "," = false)
    by by apply containsByte_Trim.
  destruct (containsByte (Trim part " ") "=") eqn:E; [|done].
  rewrite !nth_lookup, splitByte_lookup_0, (splitByte_lookup_1 _ _ E). simpl.
  rewrite (Trim_absent _ ",")
    by (simpl; by apply containsByte_beforeByte, containsByte_afterByte).
  destruct (containsByte (afterByte _ _) "=") eqn:E2; simpl; [done|].
  by rewrite (beforeByte_absent _ _ E2).
Qed.

Lemma parseCacheControl_fold_directives parts cc :
  (forall p, In p parts -> containsByte p "," = false) ->
  fold_left parseCacheControl_total_step parts cc
  = fold_left
      (fun cc token =>
         match directive token with
         | Some (name, value) => <[name := value]> cc
         | None => cc
         end) parts cc.
Proof.
  revert cc. induction parts as [|p parts IH]; intros cc Hp; simpl; [done|].
  rewrite parseCacheControl_total_step_directive by (apply Hp; by left).
  apply IH. intros q Hq. apply Hp. by right.
Qed.

End ParserFacts.

(** C8, as amended: the parser never fails, and what it builds is, token
    by token of the header split on ",", the directive described by
    [directive]: spaces trimmed, empty tokens skipped, the name before the
    first "=" with its case kept, the value between the first and the
    second "=", the empty value for a token without "=". *)
Theorem parseCacheControl_directives (headers : Header) :
  parseCacheControl_run headers = Some (parseCacheControl headers)
  /\ parseCacheControl headers = directives (Header.Get headers "Cache-Control").
Proof.
  split; [apply parseCacheControl_run_total|].
  unfold parseCacheControl, directives.
  apply parseCacheControl_fold_directives.
  intros p Hp. by apply splitByte_pieces in Hp.
Qed.

(** C8, as stated, fails: the name of a directive is not case-normalised.
    "No-Cache" is filed under "No-Cache", not under "no-cache". *)
Lemma parseCacheControl_keeps_case :
  parseCacheControl {[ "Cache-Control" := ["No-Cache"] ]} !! "no-cache" = None
  /\ parseCacheControl_spec "No-Cache" !! "no-cache" = Some ""
  /\ parseCacheControl {[ "Cache-Control" := ["No-Cache"] ]}
     <> parseCacheControl_spec "No-Cache".
Proof.
  split; [by vm_compute|]. split; [by vm_compute|].
  intros E. apply (f_equal (fun m => m !! "no-cache")) in E.
  vm_compute in E. discriminate.
Qed.

(** ** Freshness: the priority of the directives *)

Section FreshnessFacts.
Context `{Platform}.

Lemma Get_insert_ne (h : Header) k key v :
  CanonicalHeaderKey key <> k -> Header.Get (<[k := v]> h) key = Header.Get h key.
Proof. intros Hne. unfold Header.Get. by rewrite lookup_insert_ne. Qed.

Lemma parseCacheControl_insert_ne (h : Header) k v :
  k <> "Cache-Control" -> parseCacheControl (<[k := v]> h) = parseCacheControl h.
Proof.
  intros Hne. unfold parseCacheControl. by rewrite Get_insert_ne.
Qed.

Lemma Date_insert_ne (h : Header) k v :
  k <> "Date" -> Date (<[k := v]> h) = Date h.
Proof. intros Hne. unfold Date. by rewrite Get_insert_ne. Qed.

(** With max-age in the response, Expires is not looked at. *)
Lemma getFreshness_Expires_ignored respHeaders reqHeaders maxAge e :
  parseCacheControl respHeaders !! "max-age" = Some maxAge ->
  getFreshness (<["Expires" := e]> respHeaders) reqHeaders
  = getFreshness respHeaders reqHeaders.
Proof.
  intros Hv. unfold getFreshness.
  rewrite parseCacheControl_insert_ne, Date_insert_ne by done.
  by rewrite Hv.
Qed.

(** With max-age in the response and no directive in the request, the
    lifetime is max-age. *)
Lemma getFreshness_resp_max_age respHeaders reqHeaders maxAge date :
  parseCacheControl respHeaders !! "max-age" = Some maxAge ->
  parseCacheControl reqHeaders = ∅ ->
  hasKey (parseCacheControl respHeaders) "no-cache" = false ->
  Date respHeaders = inl date ->
  getFreshness respHeaders reqHeaders
  = if secondsOrZero maxAge >? clock_since date then fresh else stale.
Proof.
  intros Hv Hreq Hnc Hd. unfold getFreshness.
  rewrite Hreq, Hnc, Hd, Hv. unfold hasKey. by rewrite !lookup_empty.
Qed.

(** With max-age in the request, the response counts for its no-cache
    and its Date only. *)
Lemma getFreshness_req_max_age respHeaders respHeaders' reqHeaders maxAge :
  parseCacheControl reqHeaders !! "max-age" = Some maxAge ->
  Date respHeaders = Date respHeaders' ->
  hasKey (parseCacheControl respHeaders) "no-cache"
  = hasKey (parseCacheControl respHeaders') "no-cache" ->
  getFreshness respHeaders reqHeaders = getFreshness respHeaders' reqHeaders.
Proof.
  intros Hv Hd Hnc. unfold getFreshness. rewrite Hnc, Hd, Hv. done.
Qed.

(** With max-age in the request and none of its other directives, the
    lifetime is the request's max-age. *)
Lemma getFreshness_req_max_age_lifetime respHeaders reqHeaders maxAge date :
  parseCacheControl reqHeaders !! "max-age" = Some maxAge ->
  (forall d, d ∈ ["no-cache"; "only-if-cached"; "min-fresh"; "max-stale"] ->
             parseCacheControl reqHeaders !! d = None) ->
  hasKey (parseCacheControl respHeaders) "no-cache" = false ->
  Date respHeaders = inl date ->
  getFreshness respHeaders reqHeaders
  = if secondsOrZero maxAge >? clock_since date then fresh else stale.
Proof.
  intros Hv Hno Hnc Hd. unfold getFreshness, hasKey in *.
  rewrite (Hno "no-cache"), (Hno "only-if-cached"), (Hno "min-fresh"),
    (Hno "max-stale") by set_solver.
  rewrite Hd, Hv.
  destruct (parseCacheControl respHeaders !! "no-cache"); done.
Qed.

(** max-stale without a value: fresh, once no-cache and the Date header
    have let the evaluation come that far. *)
Lemma getFreshness_max_stale respHeaders reqHeaders date :
  parseCacheControl reqHeaders !! "max-stale" = Some "" ->
  hasKey (parseCacheControl reqHeaders) "no-cache" = false ->
  hasKey (parseCacheControl respHeaders) "no-cache" = false ->
  Date respHeaders = inl date ->
  getFreshness respHeaders reqHeaders = fresh.
Proof.
  intros Hv Hrq Hnc Hd. unfold getFreshness. rewrite Hrq, Hnc, Hd, Hv.
  destruct (hasKey _ "only-if-cached"); done.
Qed.

(** Without a Date header the verdict is stale or one of the early
    ones, whatever the request asks for. *)
Lemma getFreshness_no_Date respHeaders reqHeaders :
  Header.Get respHeaders "date" = "" ->
  hasKey (parseCacheControl reqHeaders) "no-cache" = false ->
  hasKey (parseCacheControl reqHeaders) "only-if-cached" = false ->
  getFreshness respHeaders reqHeaders = stale.
Proof.
  intros Hd H1 H2. unfold getFreshness, Date. rewrite H1, H2, Hd.
  change (String.eqb "" "") with true. cbv iota.
  destruct (hasKey (parseCacheControl respHeaders) "no-cache"); reflexivity.
Qed.

End FreshnessFacts.

(** C1, as amended: a response max-age makes the verdict independent of
    Expires and is the lifetime; a request max-age makes the verdict
    independent of the response's max-age and Expires and is the lifetime;
    a request max-stale without a value gives fresh whenever the request
    has no no-cache, the response has no no-cache and its Date parses. *)
Theorem getFreshness_priority `{Platform}
    (respHeaders respHeaders' reqHeaders : Header) (maxAge : string) (date : Time) :
  (parseCacheControl respHeaders !! "max-age" = Some maxAge ->
   (forall e, getFreshness (<["Expires" := e]> respHeaders) reqHeaders
              = getFreshness respHeaders reqHeaders)
   /\ (parseCacheControl reqHeaders = ∅ ->
       hasKey (parseCacheControl respHeaders) "no-cache" = false ->
       Date respHeaders = inl date ->
       getFreshness respHeaders reqHeaders
       = if secondsOrZero maxAge >? clock_since date then fresh else stale))
  /\ (parseCacheControl reqHeaders !! "max-age" = Some maxAge ->
      (Date respHeaders = Date respHeaders' ->
       hasKey (parseCacheControl respHeaders) "no-cache"
       = hasKey (parseCacheControl respHeaders') "no-cache" ->
       getFreshness respHeaders reqHeaders = getFreshness respHeaders' reqHeaders)
      /\ ((forall d, d ∈ ["no-cache"; "only-if-cached"; "min-fresh"; "max-stale"] ->
                     parseCacheControl reqHeaders !! d = None) ->
          hasKey (parseCacheControl respHeaders) "no-cache" = false ->
          Date respHeaders = inl date ->
          getFreshness respHeaders reqHeaders
          = if secondsOrZero maxAge >? clock_since date then fresh else stale))
  /\ (parseCacheControl reqHeaders !! "max-stale" = Some "" ->
      hasKey (parseCacheControl reqHeaders) "no-cache" = false ->
      hasKey (parseCacheControl respHeaders) "no-cache" = false ->
      Date respHeaders = inl date ->
      getFreshness respHeaders reqHeaders = fresh).
Proof.
  split; [|split].
  - intros Hv. split.
    + intros e. by eapply getFreshness_Expires_ignored.
    + by apply getFreshness_resp_max_age.
  - intros Hv. split.
    + by eapply getFreshness_req_max_age.
    + by apply getFreshness_req_max_age_lifetime.
  - apply getFreshness_max_stale.
Qed.

(** C1 at work: ten seconds after its Date, a response with max-age=3600
    is fresh whether or not an Expires header says it expired the day
    before; under a request with max-age=5 it is stale, like a response
    with max-age=1; under a request with max-stale it is fresh. *)
Lemma getFreshness_priority_witness :
  let P := Ref.platform Ex.now in
  (@getFreshness P (<["Expires" := [Ex.earlier]]> Ex.respHour) ∅
   = @getFreshness P Ex.respHour ∅
   /\ @getFreshness P Ex.respHour ∅ = fresh)
  /\ (@getFreshness P Ex.respHour Ex.reqMaxAge5 = @getFreshness P Ex.respSecond Ex.reqMaxAge5
      /\ @getFreshness P Ex.respHour Ex.reqMaxAge5 = stale)
  /\ @getFreshness P Ex.respSecond Ex.reqMaxStale = fresh.
Proof.
  intros P. split; [|split].
  - destruct (getFreshness_priority (H := P) Ex.respHour Ex.respHour ∅ "3600" Ex.date)
      as [Ha _].
    destruct Ha as [Ha1 Ha2]; [by vm_compute|].
    split; [apply Ha1|]. rewrite Ha2; by vm_compute.
  - destruct (getFreshness_priority (H := P) Ex.respHour Ex.respSecond Ex.reqMaxAge5
                "5" Ex.date) as [_ [Hb _]].
    destruct Hb as [Hb1 Hb2]; [by vm_compute|].
    split; [apply Hb1; by vm_compute|].
    rewrite Hb2; [by vm_compute| |by vm_compute|by vm_compute].
    intros d Hd. repeat (apply elem_of_cons in Hd as [->|Hd]; [by vm_compute|]).
    by apply elem_of_nil in Hd.
  - destruct (getFreshness_priority (H := P) Ex.respSecond Ex.respSecond Ex.reqMaxStale
                "" Ex.date) as [_ [_ Hc]].
    apply Hc; by vm_compute.
Defined.

(** C1, as stated, fails: a request max-stale without a value does not
    always give fresh. Without a Date header in the response the verdict
    is stale, and with no-cache in the request it is transparent. *)
Lemma getFreshness_max_stale_not_always_fresh :
  parseCacheControl Ex.reqMaxStale !! "max-stale" = Some ""
  /\ @getFreshness (Ref.platform Ex.now) Ex.respNoDate Ex.reqMaxStale = stale
  /\ parseCacheControl Ex.reqMaxStaleNoCache !! "max-stale" = Some ""
  /\ @getFreshness (Ref.platform Ex.now) Ex.respHour Ex.reqMaxStaleNoCache = transparent.
Proof. repeat split; by vm_compute. Qed.

(** ** Range requests *)

Section RangeFacts.
Context `{Platform} {C : Type} `{Cache C}.

(** Runs CachedResponse on a stored entry that parses to a response with
    a given body, for a request with a given Range header. *)
Ltac run_CachedResponse Hget Hread Hbody Hrange :=
  unfold CachedResponse, cacheGet, reqHeaderGet, headerOf;
  unfold mbind, M_bind, mret, M_ret;
  rewrite Hget, Hread, Hrange, Hbody;
  vm_compute; reflexivity.

Lemma CachedResponse_range_2_5 (req : Request) (σ : State C) raw r :
  Get (cache σ) (cacheKey req) = Some raw ->
  http_ReadResponse raw req = inl r ->
  Response.Body r = NewReader (list_byte_of_string "abcdefghij") ->
  Header.Get (headerAt (heap σ) req) "range" = "bytes=2-5" ->
  CachedResponse req σ
  = (Ret (Some (Response.withBody r (NewReader (list_byte_of_string "cde"))), None), σ).
Proof. intros Hget Hread Hbody Hrange. run_CachedResponse Hget Hread Hbody Hrange. Qed.

Lemma CachedResponse_range_suffix_3 (req : Request) (σ : State C) raw r :
  Get (cache σ) (cacheKey req) = Some raw ->
  http_ReadResponse raw req = inl r ->
  Response.Body r = NewReader (list_byte_of_string "abcdefghij") ->
  Header.Get (headerAt (heap σ) req) "range" = "bytes=-3" ->
  CachedResponse req σ
  = (Ret (Some (Response.withBody r (NewReader (list_byte_of_string "hij"))), None), σ).
Proof. intros Hget Hread Hbody Hrange. run_CachedResponse Hget Hread Hbody Hrange. Qed.

Lemma CachedResponse_range_from_7 (req : Request) (σ : State C) raw r :
  Get (cache σ) (cacheKey req) = Some raw ->
  http_ReadResponse raw req = inl r ->
  Response.Body r = NewReader (list_byte_of_string "abcdefghij") ->
  Header.Get (headerAt (heap σ) req) "range" = "bytes=7-" ->
  CachedResponse req σ
  = (Ret (Some (Response.withBody r (NewReader (list_byte_of_string "hij"))), None), σ).
Proof. intros Hget Hread Hbody Hrange. run_CachedResponse Hget Hread Hbody Hrange. Qed.

Lemma CachedResponse_range_9_2 (req : Request) (σ : State C) raw r :
  Get (cache σ) (cacheKey req) = Some raw ->
  http_ReadResponse raw req = inl r ->
  Response.Body r = NewReader (list_byte_of_string "abcdefghij") ->
  Header.Get (headerAt (heap σ) req) "range" = "bytes=9-2" ->
  CachedResponse req σ
  = (Ret (None, Some (errorString "non valid ranges specified in range request")), σ).
Proof. intros Hget Hread Hbody Hrange. run_CachedResponse Hget Hread Hbody Hrange. Qed.

Lemma CachedResponse_range_x_5 (req : Request) (σ : State C) raw r :
  Get (cache σ) (cacheKey req) = Some raw ->
  http_ReadResponse raw req = inl r ->
  Response.Body r = NewReader (list_byte_of_string "abcdefghij") ->
  Header.Get (headerAt (heap σ) req) "range" = "bytes=x-5" ->
  CachedResponse req σ
  = (Ret (Some (Response.withBody r (NewReader (list_byte_of_string "abcde"))), None), σ).
Proof. intros Hget Hread Hbody Hrange. run_CachedResponse Hget Hread Hbody Hrange. Qed.

Lemma CachedResponse_range_5_x (req : Request) (σ : State C) raw r :
  Get (cache σ) (cacheKey req) = Some raw ->
  http_ReadResponse raw req = inl r ->
  Response.Body r = NewReader (list_byte_of_string "abcdefghij") ->
  Header.Get (headerAt (heap σ) req) "range" = "bytes=5-x" ->
  CachedResponse req σ
  = (Ret (None, Some (errorString "non valid ranges specified in range request")), σ).
Proof. intros Hget Hread Hbody Hrange. run_CachedResponse Hget Hread Hbody Hrange. Qed.

Lemma CachedResponse_range_from_x (req : Request) (σ : State C) raw r :
  Get (cache σ) (cacheKey req) = Some raw ->
  http_ReadResponse raw req = inl r ->
  Response.Body r = NewReader (list_byte_of_string "abcdefghij") ->
  Header.Get (headerAt (heap σ) req) "range" = "bytes=x-" ->
  CachedResponse req σ
  = (Ret (None, Some (NumError "ParseInt" "x" ErrSyntax)), σ).
Proof. intros Hget Hread Hbody Hrange. run_CachedResponse Hget Hread Hbody Hrange. Qed.

End RangeFacts.

(** C6: on the cached body "abcdefghij", CachedResponse gives "hij" for
    bytes=-3 and for bytes=7-, and an error for bytes=9-2, as the claim
    says; for bytes=2-5 it gives "cde", one byte short of the "cdef" of the
    claim: the end of the range is taken as exclusive. *)
Theorem CachedResponse_range_abcdefghij `{Platform} {C : Type} `{Cache C}
    (req : Request) (σ : State C) (raw : bytes) (r : Response) :
  Get (cache σ) (cacheKey req) = Some raw ->
  http_ReadResponse raw req = inl r ->
  Response.Body r = NewReader (list_byte_of_string "abcdefghij") ->
  let sliced b := (Ret (Some (Response.withBody r (NewReader (list_byte_of_string b))), None), σ) in
  let failed := (Ret (None, Some (errorString "non valid ranges specified in range request")), σ) in
  (Header.Get (headerAt (heap σ) req) "range" = "bytes=2-5" ->
   CachedResponse req σ = sliced "cde")
  /\ (Header.Get (headerAt (heap σ) req) "range" = "bytes=-3" ->
      CachedResponse req σ = sliced "hij")
  /\ (Header.Get (headerAt (heap σ) req) "range" = "bytes=7-" ->
      CachedResponse req σ = sliced "hij")
  /\ (Header.Get (headerAt (heap σ) req) "range" = "bytes=9-2" ->
      CachedResponse req σ = failed).
Proof.
  intros Hget Hread Hbody sliced failed. repeat split; intros Hrange.
  - by eapply CachedResponse_range_2_5.
  - by eapply CachedResponse_range_suffix_3.
  - by eapply CachedResponse_range_from_7.
  - by eapply CachedResponse_range_9_2.
Qed.

(** C7 at its failing input: with Range: bytes=x-5 the start bound does
    not parse, and yet CachedResponse returns no error but the first five
    bytes of the body. The other forms do surface the failure: bytes=x-
    returns the error of ParseInt, and bytes=5-x, whose end reads as 0,
    the error of start >= end. *)
Theorem CachedResponse_unparsed_start_served `{Platform} {C : Type} `{Cache C}
    (req : Request) (σ : State C) (raw : bytes) (r : Response) :
  Get (cache σ) (cacheKey req) = Some raw ->
  http_ReadResponse raw req = inl r ->
  Response.Body r = NewReader (list_byte_of_string "abcdefghij") ->
  (strconv.ParseInt "x" = (0, Some (NumError "ParseInt" "x" ErrSyntax))
   /\ (Header.Get (headerAt (heap σ) req) "range" = "bytes=x-5" ->
       CachedResponse req σ
       = (Ret (Some (Response.withBody r (NewReader (list_byte_of_string "abcde"))),
               None), σ)))
  /\ (Header.Get (headerAt (heap σ) req) "range" = "bytes=x-" ->
      CachedResponse req σ = (Ret (None, Some (NumError "ParseInt" "x" ErrSyntax)), σ))
  /\ (Header.Get (headerAt (heap σ) req) "range" = "bytes=5-x" ->
      CachedResponse req σ
      = (Ret (None, Some (errorString "non valid ranges specified in range request")), σ)).
Proof.
  intros Hget Hread Hbody. repeat split; try intros Hrange.
  - by eapply CachedResponse_range_x_5.
  - by eapply CachedResponse_range_from_x.
  - by eapply CachedResponse_range_5_x.
Qed.

(** C6 on the reference platform: the entry is the bytes of a 200
    response with the body "abcdefghij". *)
Lemma CachedResponse_range_abcdefghij_witness :
  let run range := (@CachedResponse (Ref.platform Ex.now) _ _ Ex.get (Ex.stored range)).1 in
  run "bytes=2-5" = Ret (Some (Ex.ok "cde"), None)
  /\ run "bytes=-3" = Ret (Some (Ex.ok "hij"), None)
  /\ run "bytes=7-" = Ret (Some (Ex.ok "hij"), None)
  /\ run "bytes=9-2"
     = Ret (None, Some (errorString "non valid ranges specified in range request")).
Proof.
  intros run. unfold run.
  pose proof (fun range =>
    CachedResponse_range_abcdefghij (H := Ref.platform Ex.now) Ex.get (Ex.stored range)
      (Ref.entry [] "abcdefghij") (Ex.ok "abcdefghij")
      eq_refl eq_refl eq_refl) as W.
  split; [|split; [|split]].
  - destruct (W "bytes=2-5") as (-> & _); [by vm_compute|done].
  - destruct (W "bytes=-3") as (_ & -> & _); [by vm_compute|done].
  - destruct (W "bytes=7-") as (_ & _ & -> & _); [by vm_compute|done].
  - destruct (W "bytes=9-2") as (_ & _ & _ & ->); [by vm_compute|done].
Defined.

(** C7 on the reference platform. *)
Lemma CachedResponse_unparsed_start_served_witness :
  (@CachedResponse (Ref.platform Ex.now) _ _ Ex.get (Ex.stored "bytes=x-5")).1
  = Ret (Some (Ex.ok "abcde"), None).
Proof.
  destruct (CachedResponse_unparsed_start_served (H := Ref.platform Ex.now)
              Ex.get (Ex.stored "bytes=x-5")
              (Ref.entry [] "abcdefghij") (Ex.ok "abcdefghij"))
    as ((_ & ->) & _); by vm_compute.
Defined.

(** ** Runs of the exchange *)

Section RunFacts.
Context `{Platform} {C : Type} `{Cache C}.

Lemma bind_run {A B} (m : M C A) (f : A -> M C B) σ a σ' :
  m σ = (Ret a, σ') -> (m ≫= f) σ = f a σ'.
Proof. intros E. unfold mbind, M_bind. by rewrite E. Qed.

Lemma copy_header (h : Header) :
  map_fold (fun k s r2Header => <[k := s]> r2Header) ∅ h = h.
Proof.
  apply (map_fold_weak_ind (fun r m => r = m)); [done|].
  by intros i x m r _ ->.
Qed.

Lemma cloneRequest_cloned req (σ : State C) :
  cloneRequest req σ = (Ret (cloned req σ).1, (cloned req σ).2).
Proof.
  unfold cloneRequest, headerOf, newHeader, cloned, mbind, M_bind, mret, M_ret.
  simpl. by rewrite copy_header.
Qed.

Lemma fresh_free (σ : State C) : heap σ !! base.fresh (dom (heap σ)) = None.
Proof. apply not_elem_of_dom, is_fresh. Qed.

Lemma headerAt_cloned req (σ : State C) :
  headerAt (heap (cloned req σ).2) (cloned req σ).1 = headerAt (heap σ) req.
Proof. unfold cloned, headerAt at 1. simpl. by rewrite lookup_insert_eq. Qed.

Lemma heap_cloned req (σ : State C) : heap σ ⊆ heap (cloned req σ).2.
Proof. apply insert_subseteq, fresh_free. Qed.

#[local] Instance sameBut_refl l : Reflexive (@sameBut C l).
Proof. by intros σ l'. Qed.

#[local] Instance sameBut_trans l : Transitive (@sameBut C l).
Proof. intros σ1 σ2 σ3 H12 H23 l' Hl. by rewrite H23, H12. Qed.

Lemma keeps_ret {A} (R : relation (State C)) `{!Reflexive R} (a : A) :
  keeps R (mret a).
Proof. intros σ. reflexivity. Qed.

Lemma keeps_panic {A} (R : relation (State C)) `{!Reflexive R} f :
  keeps R (@panic C A f).
Proof. intros σ. reflexivity. Qed.

Lemma keeps_bind {A B} (R : relation (State C)) `{!Transitive R}
    (m : M C A) (f : A -> M C B) :
  keeps R m -> (forall a, keeps R (f a)) -> keeps R (m ≫= f).
Proof.
  intros Hm Hf σ. unfold mbind, M_bind. specialize (Hm σ).
  destruct (m σ) as [[a|e] σ']; simpl in *; [|done].
  etrans; [exact Hm|apply Hf].
Qed.

Lemma keeps_heap {A} l (m : M C A) :
  (forall σ, heap (m σ).2 = heap σ) -> keeps (@sameBut C l) m.
Proof. intros E σ l' _. by rewrite E. Qed.

Lemma keeps_eq {A} (R : relation (State C)) `{!Reflexive R} (m : M C A) :
  keeps eq m -> keeps R m.
Proof. intros E σ. rewrite <- (E σ). reflexivity. Qed.

Lemma keeps_index {A} (R : relation (State C)) `{!Reflexive R} (l : list A) i :
  keeps R (index l i).
Proof. unfold index. destruct (l !! i); [by apply keeps_ret|by apply keeps_panic]. Qed.

Lemma keeps_slice (R : relation (State C)) `{!Reflexive R} body lo hi :
  keeps R (slice body lo hi).
Proof.
  unfold slice. repeat case_match;
    [by apply keeps_panic|by apply keeps_panic|by apply keeps_ret].
Qed.

Lemma keeps_reqHeaderSet l req key value :
  Request.Header req = Some l -> keeps (@sameBut C l) (reqHeaderSet req key value).
Proof.
  intros E σ l' Hl. unfold reqHeaderSet. rewrite E. simpl.
  by rewrite lookup_insert_ne.
Qed.

Lemma headerAt_insert (hp : gmap loc (gmap string (list string))) l h m u :
  headerAt (<[l := h]> hp)
    {| Request.Method := m; Request.URL := u; Request.Header := Some l |} = h.
Proof. unfold headerAt. simpl. by rewrite lookup_insert_eq. Qed.

(** Takes a run apart: binds, returns, panics and case distinctions;
    [leaf] is tried first on every part. *)
Ltac keeps_with leaf :=
  repeat first
    [ leaf
    | apply keeps_ret; solve [apply _]
    | apply keeps_panic; solve [apply _]
    | apply keeps_index; solve [apply _]
    | apply keeps_slice; solve [apply _]
    | apply keeps_bind; [apply _| |intros ?]
    | match goal with
      | |- keeps _ (match ?x with _ => _ end) => destruct x
      end ].

Ltac heap_untouched := apply keeps_heap; intros ?; reflexivity.

(** CachedResponse reads the cache and the request, and writes nothing. *)
Lemma CachedResponse_readonly req : keeps eq (@CachedResponse _ C _ req).
Proof.
  unfold CachedResponse, cacheGet, reqHeaderGet, headerOf. cbv zeta.
  keeps_with ltac:(intros ?; reflexivity).
Qed.

Lemma RoundTrip_store_frame l req cacheKey resp :
  keeps (@sameBut C l) (RoundTrip_store req cacheKey resp).
Proof.
  unfold RoundTrip_store. cbv zeta. keeps_with heap_untouched.
Qed.

Lemma RoundTrip_cached_frame l mark transport req cacheKey cachedResp :
  Request.Header req = Some l ->
  keeps (@sameBut C l) (RoundTrip_cached mark transport req cacheKey cachedResp).
Proof.
  intros Hl. unfold RoundTrip_cached, RoundTrip_fetch, addValidators. cbv zeta.
  keeps_with ltac:(first [ apply RoundTrip_store_frame
                         | by apply keeps_reqHeaderSet
                         | heap_untouched ]).
Qed.

Lemma RoundTrip_uncached_frame l transport req cacheKey :
  keeps (@sameBut C l) (RoundTrip_uncached transport req cacheKey).
Proof.
  unfold RoundTrip_uncached, newGatewayTimeoutResponse. cbv zeta.
  keeps_with ltac:(first [apply RoundTrip_store_frame | heap_untouched]).
Qed.

(** RoundTrip after cloneRequest: only the map of the clone is written. *)
Lemma RoundTrip_after_clone_frame l t req :
  Request.Header req = Some l ->
  keeps (@sameBut C l)
    ('(cachedResp, err) ←
       (if cacheableMethod req then CachedResponse req
        else cacheDelete (cacheKey req);; mret (None, None));
     if negb (cacheableMethod req)
     then roundTrip (default http_DefaultTransport (Transport.Transport t)) req
     else
       match cachedResp, err with
       | Some cachedResp, None =>
           RoundTrip_cached (Transport.MarkCachedResponses t)
             (default http_DefaultTransport (Transport.Transport t)) req (cacheKey req) cachedResp
       | _, _ => RoundTrip_uncached (default http_DefaultTransport (Transport.Transport t))
                   req (cacheKey req)
       end).
Proof.
  intros Hl.
  keeps_with ltac:(first [ by apply RoundTrip_cached_frame
                         | apply RoundTrip_uncached_frame
                         | apply keeps_eq; [apply _|apply CachedResponse_readonly]
                         | heap_untouched ]).
Qed.

Lemma prefix_append p s : String.prefix p (p ++ s) = true.
Proof.
  induction p as [|a p IH]; simpl; [by destruct s|].
  destruct (ascii_dec a a); [done|congruence].
Qed.

(** A header X-Varied-... stays one when it is canonicalised. *)
Lemma canonical_XVaried k :
  String.prefix "X-Varied-" (CanonicalHeaderKey ("X-Varied-" ++ k)) = true.
Proof.
  unfold CanonicalHeaderKey.
  destruct (validHeaderField _); [|apply prefix_append].
  change (canonicalize true ("X-Varied-" ++ k))
    with ("X-Varied-" ++ canonicalize true k).
  apply prefix_append.
Qed.

Lemma snapshotVary_one (reqHeader : Header) resp key :
  let resp' := snapshotVary reqHeader resp key in
  Response.StatusCode resp' = Response.StatusCode resp
  /\ Response.Status resp' = Response.Status resp
  /\ Response.Body resp' = Response.Body resp
  /\ forall k, String.prefix "X-Varied-" k = false ->
               Response.Header resp' !! k = Response.Header resp !! k.
Proof.
  unfold snapshotVary. cbv zeta. destruct (negb _); [|done]. simpl.
  split; [done|]. split; [done|]. split; [done|].
  intros k Hk. unfold Header.Set_.
  apply lookup_insert_ne. intros <-. by rewrite canonical_XVaried in Hk.
Qed.

(** The loop over Vary changes X-Varied-... headers and nothing else. *)
Lemma snapshotVary_fold (reqHeader : Header) keys resp :
  let resp' := fold_left (snapshotVary reqHeader) keys resp in
  Response.StatusCode resp' = Response.StatusCode resp
  /\ Response.Status resp' = Response.Status resp
  /\ Response.Body resp' = Response.Body resp
  /\ forall k, String.prefix "X-Varied-" k = false ->
               Response.Header resp' !! k = Response.Header resp !! k.
Proof.
  revert resp. induction keys as [|key keys IH]; intros resp; simpl; [done|].
  destruct (IH (snapshotVary reqHeader resp key)) as (E1 & E2 & E3 & Eh).
  destruct (snapshotVary_one reqHeader resp key) as (F1 & F2 & F3 & Fh).
  split; [congruence|]. split; [congruence|]. split; [congruence|].
  intros k Hk. by rewrite Eh, Fh.
Qed.

Lemma parseCacheControl_Get (h h' : Header) :
  h !! "Cache-Control" = h' !! "Cache-Control" ->
  parseCacheControl h = parseCacheControl h'.
Proof.
  intros E. unfold parseCacheControl, Header.Get.
  change (CanonicalHeaderKey "Cache-Control") with "Cache-Control". by rewrite E.
Qed.

(** What RoundTrip_store does: it returns the response, with X-Varied-...
    headers at most added, writes at most the cache, and deletes the entry
    when the request or the response says no-store. *)
Lemma RoundTrip_store_run req key resp (σ : State C) :
  exists resp' σ',
    RoundTrip_store req key resp σ = (Ret (inl resp'), σ')
    /\ heap σ' = heap σ
    /\ sent σ' = sent σ
    /\ Response.StatusCode resp' = Response.StatusCode resp
    /\ Response.Status resp' = Response.Status resp
    /\ Response.Body resp' = Response.Body resp
    /\ (forall k, String.prefix "X-Varied-" k = false ->
                  Response.Header resp' !! k = Response.Header resp !! k)
    /\ (canStore (parseCacheControl (headerAt (heap σ) req))
                 (parseCacheControl (Response.Header resp)) = false ->
        cache σ' = Delete (cache σ) key).
Proof.
  unfold RoundTrip_store, headerOf, cacheSet, cacheDelete, mbind, M_bind, mret, M_ret.
  cbv zeta.
  destruct (canStore _ _).
  - destruct (snapshotVary_fold (headerAt (heap σ) req)
                (headerAllCommaSepValues (Response.Header resp) "vary") resp)
      as (E1 & E2 & E3 & Eh).
    destruct (httputil_DumpResponse _); do 2 eexists; (split; [reflexivity|]); simpl;
      repeat (split; [done|]); done.
  - do 2 eexists. split; [reflexivity|]. simpl. repeat (split; [done|]). done.
Qed.

Lemma RoundTrip_store_no_store req key resp (σ : State C) resp' σ' :
  RoundTrip_store req key resp σ = (Ret (inl resp'), σ') ->
  hasKey (parseCacheControl (headerAt (heap σ) req)) "no-store"
  || hasKey (parseCacheControl (Response.Header resp')) "no-store" = true ->
  Get (cache σ') key = None.
Proof.
  intros Hrun Hns.
  destruct (RoundTrip_store_run req key resp σ)
    as (r & σr & Er & _ & _ & _ & _ & _ & Eh & Hdel).
  rewrite Er in Hrun. injection Hrun as -> ->.
  rewrite Hdel; [apply Get_Delete_eq|].
  rewrite (parseCacheControl_Get (Response.Header resp') (Response.Header resp))
    in Hns by by apply Eh.
  unfold canStore. apply orb_true_iff in Hns as [->| ->]; [|done].
  by destruct (hasKey _ _).
Qed.

Lemma headerAt_Set l req key value (σ : State C) :
  Request.Header req = Some l ->
  headerAt (heap (reqHeaderSet req key value σ).2) req
  = Header.Set_ (headerAt (heap σ) req) key value.
Proof.
  intros E. unfold reqHeaderSet, headerAt. rewrite E. simpl.
  by rewrite lookup_insert_eq.
Qed.

#[local] Instance sameExchange_refl req : Reflexive (@sameExchange _ C _ req).
Proof. by intros σ. Qed.

#[local] Instance sameExchange_trans req : Transitive (@sameExchange _ C _ req).
Proof.
  intros σ1 σ2 σ3 (a & b & c) (a' & b' & c'). split; [congruence|].
  split; congruence.
Qed.

Lemma keeps_exchange_Set l req key value :
  Request.Header req = Some l ->
  CanonicalHeaderKey key <> "Cache-Control" ->
  keeps (@sameExchange _ C _ req) (reqHeaderSet req key value).
Proof.
  intros E Hk σ. split; [|split].
  - unfold reqHeaderSet. by rewrite E.
  - unfold reqHeaderSet. by rewrite E.
  - rewrite (headerAt_Set l) by done. unfold Header.Set_.
    by apply parseCacheControl_insert_ne.
Qed.

Lemma addValidators_exchange l cachedResp req :
  Request.Header req = Some l ->
  keeps (@sameExchange _ C _ req) (addValidators cachedResp req).
Proof.
  intros Hl. unfold addValidators, reqHeaderGet, headerOf. cbv zeta.
  keeps_with ltac:(first [ by eapply keeps_exchange_Set
                         | intros ?; reflexivity ]).
Qed.

Lemma addValidators_returns l cachedResp req (σ : State C) :
  Request.Header req = Some l ->
  (addValidators cachedResp req σ).1 = Ret tt.
Proof.
  intros Hl. unfold addValidators, reqHeaderGet, headerOf, reqHeaderSet.
  rewrite Hl. unfold mbind, M_bind, mret, M_ret. simpl.
  repeat case_match; simplify_eq/=; done.
Qed.


(** RoundTrip for GET and HEAD, after cloneRequest and CachedResponse. *)
Lemma RoundTrip_cacheable t req (σ : State C) :
  cacheableMethod req = true ->
  let transport := default http_DefaultTransport (Transport.Transport t) in
  RoundTrip t req σ
  = match (CachedResponse (cloned req σ).1 (cloned req σ).2).1 with
    | Ret (Some cachedResp, None) =>
        RoundTrip_cached (Transport.MarkCachedResponses t) transport
          (cloned req σ).1 (cacheKey req) cachedResp (cloned req σ).2
    | Ret _ => RoundTrip_uncached transport (cloned req σ).1 (cacheKey req) (cloned req σ).2
    | Fault e => (Fault e, (cloned req σ).2)
    end.
Proof.
  intros Hc transport.
  unfold RoundTrip. erewrite bind_run by apply cloneRequest_cloned.
  cbv zeta. change (cacheableMethod (cloned req σ).1) with (cacheableMethod req).
  rewrite Hc. simpl negb. cbv iota.
  unfold mbind at 1, M_bind at 1.
  pose proof (CachedResponse_readonly (cloned req σ).1 (cloned req σ).2) as Hro.
  destruct (CachedResponse _ _) as [[[cr err]|e] σ2]; simpl in *; subst σ2; [|done].
  destruct cr, err; reflexivity.
Qed.

Lemma RoundTrip_other_run t req (σ : State C) :
  cacheableMethod req = false ->
  RoundTrip t req σ
  = (Ret (default http_DefaultTransport (Transport.Transport t) (outgoing req σ)),
     mkState (Delete (cache σ) (cacheKey req)) (heap (cloned req σ).2)
             (sent σ ++ [outgoing req σ])).
Proof.
  intros Hc.
  unfold RoundTrip. erewrite bind_run by apply cloneRequest_cloned.
  cbv zeta. change (cacheableMethod (cloned req σ).1) with (cacheableMethod req).
  rewrite Hc. simpl.
  unfold roundTrip, cacheDelete, mbind, M_bind, mret, M_ret. simpl.
  by rewrite !headerAt_insert.
Qed.

Lemma RoundTrip_fetch_no_store transport req key cachedResp (σ : State C) resp' σ' :
  RoundTrip_fetch transport req key cachedResp σ = (Ret (inl resp'), σ') ->
  hasKey (parseCacheControl (headerAt (heap σ) req)) "no-store"
  || hasKey (parseCacheControl (Response.Header resp')) "no-store" = true ->
  Get (cache σ') key = None.
Proof.
  unfold RoundTrip_fetch, roundTrip, cacheDelete, mbind, M_bind, mret, M_ret.
  simpl. destruct (transport _) as [resp|err]; [|done].
  destruct (_ && _); [|destruct (negb _)]; intros Hrun Hns;
    by eapply RoundTrip_store_no_store.
Qed.

Lemma RoundTrip_uncached_no_store transport req key (σ : State C) resp' σ' :
  RoundTrip_uncached transport req key σ = (Ret (inl resp'), σ') ->
  hasKey (parseCacheControl (headerAt (heap σ) req)) "no-store"
  || hasKey (parseCacheControl (Response.Header resp')) "no-store" = true ->
  Get (cache σ') key = None.
Proof.
  unfold RoundTrip_uncached, newGatewayTimeoutResponse, roundTrip, headerOf, panic,
    mbind, M_bind, mret, M_ret.
  simpl. destruct (hasKey _ "only-if-cached").
  - destruct (http_ReadResponse _ _); [|done]. intros Hrun Hns.
    by eapply RoundTrip_store_no_store.
  - destruct (transport _) as [resp|err]; [|done]. intros Hrun Hns.
    by eapply RoundTrip_store_no_store.
Qed.

(** The two ways of RoundTrip_cached: the cached response as it is, or
    the fetch, after the validators may have been added. *)
Lemma RoundTrip_cached_run l MarkCachedResponses transport req key cachedResp (σ : State C) :
  Request.Header req = Some l ->
  let marked := mark MarkCachedResponses cachedResp in
  let fresh_ :=
    varyMatches marked (headerAt (heap σ) req)
    && bool_decide (getFreshness (Response.Header marked) (headerAt (heap σ) req) = fresh) in
  (fresh_ = true
   /\ RoundTrip_cached MarkCachedResponses transport req key cachedResp σ
      = (Ret (inl marked), σ))
  \/ (fresh_ = false
      /\ exists σv, sameExchange req σ σv
         /\ RoundTrip_cached MarkCachedResponses transport req key cachedResp σ
            = RoundTrip_fetch transport req key marked σv).
Proof.
  intros Hl marked fresh_. subst fresh_.
  pose proof (addValidators_returns l marked req σ Hl) as Hr.
  pose proof (addValidators_exchange l marked req Hl σ) as Hx.
  unfold RoundTrip_cached. fold marked.
  unfold headerOf, mbind, M_bind, mret, M_ret. simpl.
  destruct (varyMatches marked (headerAt (heap σ) req)); simpl;
    [|right; split; [done|]; by exists σ].
  destruct (getFreshness _ _); simpl.
  - right. split; [done|].
    destruct (addValidators marked req σ) as [[[]|e] σv]; simpl in *; [|done].
    by exists σv.
  - by left.
  - right. split; [done|]. by exists σ.
Qed.


Lemma freshHit_cached t req (σ : State C) cachedResp :
  cacheableMethod req = true ->
  (CachedResponse (cloned req σ).1 (cloned req σ).2).1 = Ret (Some cachedResp, None) ->
  freshHit t req σ
  = let marked := mark (Transport.MarkCachedResponses t) cachedResp in
    varyMatches marked (headerAt (heap σ) req)
    && bool_decide (getFreshness (Response.Header marked) (headerAt (heap σ) req) = fresh).
Proof.
  intros Hc Hcr. unfold freshHit.
  pose proof (CachedResponse_readonly (cloned req σ).1 (cloned req σ).2) as Hro.
  destruct (cloned req σ) as [req' σ1] eqn:Ecl.
  rewrite Hc. simpl in *.
  destruct (CachedResponse req' σ1) as [o σ2]. simpl in *. subst o σ2.
  pose proof (headerAt_cloned req σ) as Eh. rewrite Ecl in Eh. simpl in Eh.
  by rewrite Eh.
Qed.

Lemma merge_fold (respHeader : Header) keys (h : Header) k :
  fold_left (fun h header => <[header := default [] (respHeader !! header)]> h) keys h !! k
  = if decide (k ∈ keys) then Some (default [] (respHeader !! k)) else h !! k.
Proof.
  revert h. induction keys as [|a keys IH]; intros h; cbn [fold_left].
  - destruct (decide (k ∈ [])) as [Hin|]; [by apply elem_of_nil in Hin|done].
  - rewrite IH. destruct (decide (k ∈ keys)) as [Hin|Hin].
    + destruct (decide (k ∈ a :: keys)) as [|Hn]; [done|]. destruct Hn. by right.
    + destruct (decide (a = k)) as [->|Hne].
      * rewrite lookup_insert_eq.
        destruct (decide (k ∈ k :: keys)) as [|Hn]; [done|]. destruct Hn. by left.
      * rewrite lookup_insert_ne by done.
        destruct (decide (k ∈ a :: keys)) as [[->|?]%elem_of_cons|]; done.
Qed.

Lemma getEndToEndHeaders_elem (respHeader : Header) k :
  k ∈ getEndToEndHeaders respHeader
  <-> is_Some (respHeader !! k) /\ k ∉ hopByHop respHeader.
Proof.
  unfold getEndToEndHeaders. rewrite list_elem_of_filter, list_elem_of_fmap.
  split.
  - intros (Hhop & [k' v] & -> & Hin). split; [|done].
    apply elem_of_map_to_list in Hin. by eexists.
  - intros ([v Hv] & Hhop). split; [done|].
    exists (k, v). split; [done|]. by apply elem_of_map_to_list.
Qed.

(** The merge: an end-to-end header of the 304 has the value of the 304,
    any other header the value of the cached response. *)
Lemma mergeHeaders_lookup (cachedHeader respHeader : Header) k :
  mergeHeaders cachedHeader respHeader !! k
  = if decide (k ∈ getEndToEndHeaders respHeader) then respHeader !! k
    else cachedHeader !! k.
Proof.
  unfold mergeHeaders. rewrite merge_fold.
  destruct (decide _) as [Hin|]; [|done].
  apply getEndToEndHeaders_elem in Hin as [[v ->] _]. done.
Qed.

(** Without a Range header CachedResponse gives the entry as parsed. *)
Lemma CachedResponse_no_range req (σ : State C) raw r :
  Get (cache σ) (cacheKey req) = Some raw ->
  http_ReadResponse raw req = inl r ->
  Header.Get (headerAt (heap σ) req) "range" = "" ->
  CachedResponse req σ = (Ret (Some r, None), σ).
Proof.
  intros Hg Hr Hrange.
  unfold CachedResponse, cacheGet, reqHeaderGet, headerOf, mbind, M_bind, mret, M_ret.
  by rewrite Hg, Hr, Hrange.
Qed.


End RunFacts.

(** C10: whatever the request and the state, a run of RoundTrip leaves
    every header map that existed before it as it was: the caller's
    request, struct and header map, is not written; the validators go to
    the map of the clone that cloneRequest makes first. *)
Theorem RoundTrip_leaves_request_alone `{Platform} {C : Type} `{Cache C}
    (t : Transport) (req : Request) (σ : State C) :
  heap σ ⊆ heap (RoundTrip t req σ).2.
Proof.
  unfold RoundTrip. erewrite bind_run by apply cloneRequest_cloned.
  pose proof (RoundTrip_after_clone_frame (base.fresh (dom (heap σ))) t
                (cloned req σ).1 eq_refl (cloned req σ).2) as Hframe.
  cbv zeta. apply map_subseteq_spec. intros l h Hl.
  rewrite Hframe.
  - by apply (lookup_weaken _ _ _ _ Hl), heap_cloned.
  - intros ->. by rewrite fresh_free in Hl.
Qed.

(** C5: for a method other than GET and HEAD, RoundTrip hands the request
    to the transport, returns what the transport returns, and leaves the
    cache as it was but for the entry of the request's URL, deleted. *)
Theorem RoundTrip_other_methods `{Platform} {C : Type} `{Cache C}
    (t : Transport) (req : Request) (σ : State C) :
  Request.Method req <> "GET" ->
  Request.Method req <> "HEAD" ->
  let transport := default http_DefaultTransport (Transport.Transport t) in
  exists σ',
    RoundTrip t req σ = (Ret (transport (outgoing req σ)), σ')
    /\ cache σ' = Delete (cache σ) (cacheKey req)
    /\ sent σ' = (sent σ ++ [outgoing req σ])%list.
Proof.
  intros Hget Hhead transport.
  apply String.eqb_neq in Hget, Hhead.
  eexists. split.
  - apply RoundTrip_other_run. unfold cacheableMethod. by rewrite Hget, Hhead.
  - by split.
Qed.

(** C5 on the reference platform: a POST to a URL with a cached entry is
    answered by the transport, and the entry is gone. *)
Lemma RoundTrip_other_methods_witness :
  let run := @RoundTrip (Ref.platform Ex.now) _ _
               (Ex.answering (inl (Ex.ok "created"))) Ex.post (Ex.exchange [] ∅) in
  run.1 = Ret (inl (Ex.ok "created"))
  /\ Get (cache run.2) Ex.url = None
  /\ length (sent run.2) = 1%nat.
Proof.
  intros run. unfold run.
  destruct (RoundTrip_other_methods (H := Ref.platform Ex.now)
              (Ex.answering (inl (Ex.ok "created"))) Ex.post (Ex.exchange [] ∅))
    as (σ' & -> & Hc & Hs); [by vm_compute|by vm_compute|].
  simpl. rewrite Hc, Hs. split; [done|]. split; by vm_compute.
Defined.

(** C3, as amended: when RoundTrip returns a response that is not the
    cached one served fresh without a fetch, and the request or the
    response carries no-store, the cache holds no entry for the request's
    key afterwards. *)
Theorem RoundTrip_no_store `{Platform} {C : Type} `{Cache C}
    (t : Transport) (req : Request) (σ σ' : State C) (resp : Response) :
  RoundTrip t req σ = (Ret (inl resp), σ') ->
  freshHit t req σ = false ->
  hasKey (parseCacheControl (headerAt (heap σ) req)) "no-store"
  || hasKey (parseCacheControl (Response.Header resp)) "no-store" = true ->
  Get (cache σ') (cacheKey req) = None.
Proof.
  intros Hrun Hfresh Hns.
  destruct (cacheableMethod req) eqn:Hc.
  - rewrite RoundTrip_cacheable in Hrun by done.
    rewrite <- (headerAt_cloned req σ) in Hns.
    destruct (CachedResponse _ _).1 as [[[cachedResp|] [err|]]|e] eqn:Hcr;
      cbv iota beta in Hrun;
      try done; try (by eapply RoundTrip_uncached_no_store).
    rewrite (freshHit_cached t req σ cachedResp) in Hfresh by done.
    cbv zeta in Hfresh. rewrite <- (headerAt_cloned req σ) in Hfresh.
    destruct (RoundTrip_cached_run (base.fresh (dom (heap σ)))
                (Transport.MarkCachedResponses t)
                (default http_DefaultTransport (Transport.Transport t))
                (cloned req σ).1 (cacheKey req) cachedResp (cloned req σ).2 eq_refl)
      as [[Ht _]|[_ (σv & (_ & _ & Hcc) & E)]]; [congruence|].
    rewrite E in Hrun. rewrite <- Hcc in Hns.
    by eapply RoundTrip_fetch_no_store.
  - rewrite RoundTrip_other_run in Hrun by done.
    injection Hrun as _ <-. simpl. apply Get_Delete_eq.
Qed.

(** C3 on the reference platform: a GET with no-store, answered by the
    transport, removes the stale entry for its URL. *)
Lemma RoundTrip_no_store_witness :
  let run := @RoundTrip (Ref.platform Ex.now) _ _
               (Ex.answering (inl (Ex.ok "net"))) Ex.get
               (Ex.exchange [] {[ "Cache-Control" := ["no-store"] ]}) in
  Ex.returned run = Some (Ex.ok "net")
  /\ Get (cache run.2) Ex.url = None.
Proof.
  intros run. split; [by vm_compute|].
  apply (RoundTrip_no_store (H := Ref.platform Ex.now)
           (Ex.answering (inl (Ex.ok "net"))) Ex.get
           (Ex.exchange [] {[ "Cache-Control" := ["no-store"] ]}) run.2 (Ex.ok "net"));
    by vm_compute.
Defined.

(** C3, as stated, fails: a GET with no-store that finds a fresh entry is
    answered from the cache, and the entry stays where it is. *)
Lemma RoundTrip_no_store_fresh_hit_keeps_entry :
  let entryHeaders := ["Cache-Control: max-age=3600"; "Date: " ++ Ex.dateText] in
  let reqHeader : Header := {[ "Cache-Control" := ["no-store"] ]} in
  let run := @RoundTrip (Ref.platform Ex.now) _ _
               (Ex.answering (inl (Ex.ok "net"))) Ex.get
               (Ex.exchange entryHeaders reqHeader) in
  hasKey (parseCacheControl reqHeader) "no-store" = true
  /\ Ex.bodyText <$> Ex.returned run = Some "abcdefghij"
  /\ sent run.2 = []
  /\ Get (cache run.2) Ex.url = Some (Ref.entry entryHeaders "abcdefghij").
Proof. repeat split; by vm_compute. Qed.

(** C4, as amended: for a GET or HEAD with only-if-cached, when there is
    no stored entry, or the entry does not parse, or CachedResponse
    returns an error, RoundTrip returns the 504 made by
    newGatewayTimeoutResponse and sends nothing to the transport. That
    http.ReadResponse reads the literal "HTTP/1.1 504 Gateway Timeout" as
    a response [r504] of status 504 is a fact of net/http, taken as a
    hypothesis. *)
Theorem RoundTrip_only_if_cached `{Platform} {C : Type} `{Cache C}
    (t : Transport) (req : Request) (σ : State C)
    (r504 : Response) :
  cacheableMethod req = true ->
  hasKey (parseCacheControl (headerAt (heap σ) req)) "only-if-cached" = true ->
  (forall rq, http_ReadResponse gatewayTimeoutRaw rq = inl r504) ->
  Response.StatusCode r504 = 504 ->
  Get (cache σ) (cacheKey req) = None
  \/ (exists raw msg, Get (cache σ) (cacheKey req) = Some raw
                      /\ http_ReadResponse raw (cloned req σ).1 = inr msg)
  \/ (exists err, (CachedResponse (cloned req σ).1 (cloned req σ).2).1
                  = Ret (None, Some err)) ->
  exists resp σ',
    RoundTrip t req σ = (Ret (inl resp), σ')
    /\ Response.StatusCode resp = 504
    /\ Response.Status resp = Response.Status r504
    /\ Response.Body resp = Response.Body r504
    /\ sent σ' = sent σ.
Proof.
  intros Hc Hoic H504 Hcode Hnone.
  assert (Hcr : exists err, (CachedResponse (cloned req σ).1 (cloned req σ).2).1
                            = Ret (None, err)).
  { unfold cacheKey in Hnone.
    destruct Hnone as [Hg|[(raw & msg & Hg & Hr)|(err & He)]]; [| |by eexists].
    - exists None. unfold CachedResponse, cacheGet, mbind, M_bind, mret, M_ret.
      simpl. by rewrite Hg.
    - eexists. unfold CachedResponse, cacheGet, mbind, M_bind, mret, M_ret.
      simpl. rewrite Hg. simpl in Hr. rewrite Hr. reflexivity. }
  destruct Hcr as (err & Hcr).
  rewrite RoundTrip_cacheable by done. rewrite Hcr.
  assert (Hu : RoundTrip_uncached (default http_DefaultTransport (Transport.Transport t))
                 (cloned req σ).1 (cacheKey req) (cloned req σ).2
               = RoundTrip_store (cloned req σ).1 (cacheKey req) r504 (cloned req σ).2).
  { unfold RoundTrip_uncached, newGatewayTimeoutResponse, headerOf,
      mbind, M_bind, mret, M_ret.
    rewrite <- (headerAt_cloned req σ) in Hoic. rewrite Hoic, H504. reflexivity. }
  destruct (RoundTrip_store_run (cloned req σ).1 (cacheKey req) r504 (cloned req σ).2)
    as (resp & σ' & E & _ & Es & E1 & E2 & E3 & _).
  exists resp, σ'. rewrite <- Hu in E.
  split; [by destruct err|]. split; [congruence|]. by repeat split.
Qed.

(** C4 on the reference platform: only-if-cached and an empty cache. *)
Lemma RoundTrip_only_if_cached_witness :
  let run := @RoundTrip (Ref.platform Ex.now) _ _
               (Ex.answering (inl (Ex.ok "net"))) Ex.get
               (Ref.start ∅ {[ "Cache-Control" := ["only-if-cached"] ]}) in
  exists resp σ',
    run = (Ret (inl resp), σ')
    /\ Response.StatusCode resp = 504
    /\ sent σ' = [].
Proof.
  intros run. unfold run.
  destruct (RoundTrip_only_if_cached (H := Ref.platform Ex.now)
              (Ex.answering (inl (Ex.ok "net"))) Ex.get
              (Ref.start ∅ {[ "Cache-Control" := ["only-if-cached"] ]})
              {| Response.Status := "504 Gateway Timeout";
                 Response.StatusCode := 504;
                 Response.Header := ∅;
                 Response.Body := NewReader [] |})
    as (resp & σ' & E & Ecode & _ & _ & Es);
    [by vm_compute|by vm_compute| |done|left; by vm_compute|].
  { intros rq. simpl. unfold Ref.ReadResponse.
    generalize (String.eqb (Request.Method rq) "HEAD"). intros [|]; by vm_compute. }
  exists resp, σ'. split; [exact E|]. split; [exact Ecode|]. exact Es.
Defined.

(** C4, as stated, fails: with only-if-cached and an entry whose Vary
    headers do not match the request, RoundTrip calls the transport and
    returns its response. *)
Lemma RoundTrip_only_if_cached_vary_mismatch_fetches :
  let entryHeaders := ["Vary: Accept-Language"; "X-Varied-Accept-Language: en"] in
  let reqHeader : Header :=
    {[ "Accept-Language" := ["fr"]; "Cache-Control" := ["only-if-cached"] ]} in
  let run := @RoundTrip (Ref.platform Ex.now) _ _
               (Ex.answering (inl (Ex.ok "net"))) Ex.get
               (Ex.exchange entryHeaders reqHeader) in
  hasKey (parseCacheControl reqHeader) "only-if-cached" = true
  /\ Ex.returned run = Some (Ex.ok "net")
  /\ length (sent run.2) = 1%nat.
Proof. repeat split; by vm_compute. Qed.

(** C2, as amended: for a GET with a cached response that is not served
    fresh, when the transport answers 304, RoundTrip returns a response
    with status 200 and the body CachedResponse gave, which is the stored
    body when the request has no Range header; its headers, X-Varied-...
    apart, are those of the 304 where the 304 has an end-to-end header and
    those of the cached response elsewhere, so that the ETag is the one of
    the 304 unless its Connection header lists ETag. *)
Theorem RoundTrip_304_merge `{Platform} {C : Type} `{Cache C}
    (t : Transport) (req : Request) (σ : State C)
    (cachedResp resp304 : Response) :
  Request.Method req = "GET" ->
  (CachedResponse (cloned req σ).1 (cloned req σ).2).1 = Ret (Some cachedResp, None) ->
  freshHit t req σ = false ->
  (forall out, outMethod out = "GET" -> outURL out = Request.URL req ->
               default http_DefaultTransport (Transport.Transport t) out = inl resp304) ->
  Response.StatusCode resp304 = 304 ->
  exists resp σ',
    RoundTrip t req σ = (Ret (inl resp), σ')
    /\ Response.StatusCode resp = 200
    /\ Response.Status resp = "200 OK"
    /\ Response.Body resp = Response.Body cachedResp
    /\ (forall k, String.prefix "X-Varied-" k = false ->
          Response.Header resp !! k
          = if decide (k ∈ getEndToEndHeaders (Response.Header resp304))
            then Response.Header resp304 !! k
            else Response.Header (mark (Transport.MarkCachedResponses t) cachedResp) !! k)
    /\ (is_Some (Response.Header resp304 !! "Etag") ->
        "Etag" ∉ hopByHop (Response.Header resp304) ->
        Header.Get (Response.Header resp) "etag"
        = Header.Get (Response.Header resp304) "etag")
    /\ (Header.Get (headerAt (heap σ) req) "range" = "" ->
        forall raw r,
          Get (cache σ) (cacheKey req) = Some raw ->
          http_ReadResponse raw (cloned req σ).1 = inl r ->
          cachedResp = r).
Proof.
  intros Hget Hcr Hfresh Htr H304.
  assert (Hc : cacheableMethod req = true) by (unfold cacheableMethod; by rewrite Hget).
  rewrite RoundTrip_cacheable by done. rewrite Hcr.
  rewrite (freshHit_cached t req σ cachedResp) in Hfresh by done.
  cbv zeta in Hfresh. rewrite <- (headerAt_cloned req σ) in Hfresh.
  destruct (RoundTrip_cached_run (base.fresh (dom (heap σ)))
              (Transport.MarkCachedResponses t)
              (default http_DefaultTransport (Transport.Transport t))
              (cloned req σ).1 (cacheKey req) cachedResp (cloned req σ).2 eq_refl)
    as [[Ht _]|[_ (σv & _ & ->)]]; [congruence|].
  unfold RoundTrip_fetch, roundTrip, mbind at 1, M_bind at 1.
  rewrite Htr by done.
  change (Request.Method (cloned req σ).1) with (Request.Method req).
  rewrite Hget, H304.
  change (String.eqb "GET" "GET" && (304 =? 304)) with true. cbv iota.
  match goal with |- context [RoundTrip_store ?r ?k ?m ?s] =>
    destruct (RoundTrip_store_run r k m s) as (resp & σ' & E & _ & _ & E1 & E2 & E3 & Eh & _)
  end.
  exists resp, σ'. split; [exact E|]. simpl in E1, E2, E3.
  split; [done|]. split; [done|]. split; [by destruct (Transport.MarkCachedResponses t)|].
  assert (Hk : forall k, String.prefix "X-Varied-" k = false ->
            Response.Header resp !! k
            = if decide (k ∈ getEndToEndHeaders (Response.Header resp304))
              then Response.Header resp304 !! k
              else Response.Header (mark (Transport.MarkCachedResponses t) cachedResp) !! k).
  { intros k Hp. rewrite Eh by done. simpl. apply mergeHeaders_lookup. }
  split; [exact Hk|]. split.
  - intros Hsome Hhop. unfold Header.Get.
    change (CanonicalHeaderKey "etag") with "Etag".
    rewrite Hk by done. rewrite decide_True; [done|].
    by apply getEndToEndHeaders_elem.
  - intros Hrange raw r Hg Hr.
    rewrite <- (headerAt_cloned req σ) in Hrange.
    rewrite (CachedResponse_no_range (cloned req σ).1 (cloned req σ).2 raw r Hg Hr Hrange)
      in Hcr.
    by simplify_eq/=.
Qed.

(** C2 on the reference platform: the entry has ETag v1 and no Date, the
    transport answers 304 with ETag v2. *)
Lemma RoundTrip_304_merge_witness :
  let run := @RoundTrip (Ref.platform Ex.now) _ _
               (Ex.answering (inl (Ex.notModified "v2"))) Ex.get
               (Ex.exchange ["ETag: v1"] ∅) in
  exists resp σ',
    run = (Ret (inl resp), σ')
    /\ Response.StatusCode resp = 200
    /\ Header.Get (Response.Header resp) "etag" = "v2"
    /\ Ex.bodyText resp = "abcdefghij".
Proof.
  intros run. unfold run.
  destruct (RoundTrip_304_merge (H := Ref.platform Ex.now)
              (Ex.answering (inl (Ex.notModified "v2"))) Ex.get
              (Ex.exchange ["ETag: v1"] ∅)
              {| Response.Status := "200 OK";
                 Response.StatusCode := 200;
                 Response.Header := {[ "Etag" := ["v1"] ]};
                 Response.Body := NewReader (list_byte_of_string "abcdefghij") |}
              (Ex.notModified "v2"))
    as (resp & σ' & E & Ecode & _ & Ebody & _ & Eetag & _);
    [by vm_compute|by vm_compute|by vm_compute|done|done|].
  exists resp, σ'. split; [exact E|]. split; [exact Ecode|].
  split; [|unfold Ex.bodyText; rewrite Ebody; reflexivity].
  rewrite Eetag; [vm_compute; reflexivity|vm_compute; by eexists|].
  intros Hin. vm_compute in Hin. discriminate Hin.
Defined.

(** C2, as stated, fails: when the GET has a Range header, the response
    merged from the 304 carries the slice that CachedResponse cut, not the
    original cached body; and when the 304 names ETag in its Connection
    header, the merged response keeps the ETag of the cached one. *)
Lemma RoundTrip_304_merge_range_body :
  let etagOf resp := Header.Get (Response.Header resp) "etag" in
  let run := @RoundTrip (Ref.platform Ex.now) _ _
               (Ex.answering (inl (Ex.notModified "v2"))) Ex.get
               (Ex.exchange ["ETag: v1"] {[ "Range" := ["bytes=0-2"] ]}) in
  let hopByHopETag :=
    Response.withHeader (Ex.notModified "v2")
      {[ "Etag" := ["v2"]; "Connection" := ["etag"] ]} in
  let run' := @RoundTrip (Ref.platform Ex.now) _ _
                (Ex.answering (inl hopByHopETag)) Ex.get
                (Ex.exchange ["ETag: v1"] ∅) in
  (Response.StatusCode <$> Ex.returned run = Some 200
   /\ etagOf <$> Ex.returned run = Some "v2"
   /\ Ex.bodyText <$> Ex.returned run = Some "ab"
   /\ Ex.bodyText <$> Ex.returned run <> Some "abcdefghij")
  /\ (Response.StatusCode <$> Ex.returned run' = Some 200
      /\ etagOf <$> Ex.returned run' = Some "v1").
Proof. repeat split; by vm_compute. Qed.

(** C9 at its failing input: the caller has set If-None-Match to v1, the
    cached response is stale and has the ETag v2. The request sent carries
    If-None-Match: v2: RoundTrip asks whether the caller's request has an
    "etag" header, which it has not, and overwrites the caller's
    If-None-Match. A caller's "etag" header, which is no validator, keeps
    the validator from being added. *)
Theorem RoundTrip_validators_overwrite_caller :
  let sentHeaders (reqHeader : Header) :=
    outHeader <$> sent (@RoundTrip (Ref.platform Ex.now) _ _
                          (Ex.answering (inl (Ex.notModified "v2"))) Ex.get
                          (Ex.exchange ["ETag: v2"] reqHeader)).2 in
  sentHeaders {[ "If-None-Match" := ["v1"] ]} = [ {[ "If-None-Match" := ["v2"] ]} ]
  /\ sentHeaders ∅ = [ {[ "If-None-Match" := ["v2"] ]} ]
  /\ sentHeaders {[ "Etag" := ["v1"] ]} = [ {[ "Etag" := ["v1"] ]} ].
Proof. repeat split; by vm_compute. Qed.
